(** * ICS-CTF: progress store, content resolver and answer checking

    A shallow embedding of the core of the I-CTF training application:

    - [progress.py]: the [ProgressManager] store (attempt statistics,
      completion and hint flags, rollups, reset);
    - [I-CTF-Code/paths.py]: [PathManager.get_topics] (topic ordering),
      [load_question_content] / [_extract_content] (bracket parsing) and the
      identifier used by [get_correct_answer] and [get_hint_content];
    - [I-CTF-Code/app.py]: [CTFApplication.check_answer], [show_hint] and
      [reset_progress], as far as they drive the store, and the completion
      checks [is_topic_completed], [is_difficulty_completed],
      [is_module_completed] with the counters of
      [calculate_module_completion];
    - [config.py]: the [ConfigManager] directory list and base directory.

    The file system is not modelled: where a function lists a directory,
    reads a file or asks whether a path exists, the answer is an argument.

    Python [str] values are modelled as [string]; a character is a code point
    below 256.  Python [int] is [Z].  The dictionaries of the store are
    [gmap string _]: the code only sums over them and looks keys up, so the
    iteration order of a [dict] is not observable.  The [accuracy] field of the
    statistics dictionaries is a float quotient and is left out.  Writing the
    JSON files ([_save_stats], [_save_progress]) catches its own errors and
    does not touch the in-memory state; it is not modelled. *)

From Stdlib Require Import ZArith Ascii String List Bool Lia Sorted.
From stdpp Require Import base gmap strings list fin_maps.

Open Scope Z_scope.

(** ** Python string primitives *)

Module Py.

(** [c in s] for a one-character [c]. *)
Fixpoint contains (c : ascii) (s : string) : bool :=
  match s with
  | EmptyString => false
  | String a s' => if Ascii.eqb a c then true else contains c s'
  end.

(** [s.startswith(p)]. *)
Definition startswith (p s : string) : bool := String.prefix p s.

(** [str.isspace] on one character (code points below 256). *)
Definition isspace (c : ascii) : bool :=
  let n := nat_of_ascii c in
  ((9 <=? n) && (n <=? 13) || (28 <=? n) && (n <=? 32)
   || (n =? 133) || (n =? 160))%nat.

(** [str.lower] on one character (code points below 256): A-Z and the
    Latin-1 capitals U+00C0..U+00DE except the multiplication sign. *)
Definition lower_char (c : ascii) : ascii :=
  let n := nat_of_ascii c in
  if ((65 <=? n) && (n <=? 90)
      || (192 <=? n) && (n <=? 222) && negb (n =? 215))%nat
  then ascii_of_nat (n + 32) else c.

Fixpoint lower (s : string) : string :=
  match s with
  | EmptyString => EmptyString
  | String c s' => String (lower_char c) (lower s')
  end.

Fixpoint lstrip (s : string) : string :=
  match s with
  | EmptyString => EmptyString
  | String c s' => if isspace c then lstrip s' else s
  end.

Fixpoint rstrip (s : string) : string :=
  match s with
  | EmptyString => EmptyString
  | String c s' =>
      match rstrip s' with
      | EmptyString => if isspace c then EmptyString else String c EmptyString
      | r => String c r
      end
  end.

(** [s.strip()]. *)
Definition strip (s : string) : string := rstrip (lstrip s).

(** [s.split(c)] for a one-character separator: never the empty list. *)
Fixpoint split (c : ascii) (s : string) : list string :=
  match s with
  | EmptyString => [EmptyString]
  | String a s' =>
      if Ascii.eqb a c then EmptyString :: split c s'
      else match split c s' with
           | h :: t => String a h :: t
           | [] => [String a EmptyString]
           end
  end.

(** [sep.join(l)]. *)
Fixpoint join (sep : string) (l : list string) : string :=
  match l with
  | [] => EmptyString
  | [x] => x
  | x :: l' => x +:+ sep +:+ join sep l'
  end.

(** [s.find(c, start)] for a one-character [c] and [0 <= start]:
    the least index [i >= start] with [s[i] == c], or [-1]. *)
Fixpoint find_from (c : ascii) (s : string) (start : nat) (pos : Z) : Z :=
  match s with
  | EmptyString => -1
  | String a s' =>
      match start with
      | S k => find_from c s' k (pos + 1)
      | O => if Ascii.eqb a c then pos else find_from c s' O (pos + 1)
      end
  end.

Definition find (c : ascii) (s : string) (start : Z) : Z :=
  find_from c s (Z.to_nat start) 0.

(** [s[i:j]] for [0 <= i] and [0 <= j]. *)
Definition slice (s : string) (i j : Z) : string :=
  substring (Z.to_nat i) (Z.to_nat (j - i)) s.

(** [s.replace(old, new)] for a non-empty [old]: the occurrences are taken
    left to right and do not overlap.  [skip] counts the characters of a
    matched occurrence that are still to be dropped. *)
Fixpoint replace_aux (old new s : string) (skip : nat) : string :=
  match s with
  | EmptyString => EmptyString
  | String c s' =>
      match skip with
      | S k => replace_aux old new s' k
      | O =>
          if String.prefix old s
          then new +:+ replace_aux old new s' (String.length old - 1)
          else String c (replace_aux old new s' O)
      end
  end.

Definition replace (old new s : string) : string := replace_aux old new s O.

(** Truthiness of a [str]. *)
Definition nonempty (s : string) : bool :=
  match s with EmptyString => false | _ => true end.

(** Truthiness of a value that is [None] or a [str]. *)
Definition truthy (o : option string) : bool :=
  match o with Some s => nonempty s | None => false end.

(** [f"{x}"] for a value that is [None] or a [str]. *)
Definition fmt (o : option string) : string :=
  match o with Some s => s | None => "None" end.

Definition isdigit (c : ascii) : bool :=
  let n := nat_of_ascii c in ((48 <=? n) && (n <=? 57))%nat.

(** [int(s)] for a string of decimal digits, most significant first. *)
Fixpoint int_acc (s : string) (acc : Z) : Z :=
  match s with
  | EmptyString => acc
  | String c s' => int_acc s' (10 * acc + Z.of_nat (nat_of_ascii c - 48))
  end.

(** The text ["\n\n"]. *)
Definition blank_line : string :=
  String (ascii_of_nat 10) (String (ascii_of_nat 10) EmptyString).

(** [s[:-1]]. *)
Definition init (s : string) : string :=
  substring 0 (String.length s - 1) s.

(** [old in s] for strings: [old] occurs somewhere in [s]. *)
Fixpoint has_sub (old s : string) : bool :=
  String.prefix old s
  || match s with
     | EmptyString => false
     | String _ s' => has_sub old s'
     end.

(** [s.endswith(suffix)]: [suffix] is [s] or the rest of [s] from some
    position on. *)
Fixpoint endswith (suffix s : string) : bool :=
  String.eqb s suffix
  || match s with
     | EmptyString => false
     | String _ s' => endswith suffix s'
     end.

(** Every character of [s] passes the test [p]. *)
Fixpoint all (p : ascii → bool) (s : string) : bool :=
  match s with
  | EmptyString => true
  | String c s' => p c && all p s'
  end.

(** [sorted(l)] for a list of strings: ascending by code points. *)
Fixpoint insert_sorted (x : string) (l : list string) : list string :=
  match l with
  | [] => [x]
  | y :: l' => if String.leb x y then x :: l else y :: insert_sorted x l'
  end.

Fixpoint sorted (l : list string) : list string :=
  match l with
  | [] => []
  | x :: l' => insert_sorted x (sorted l')
  end.

End Py.

(** ** The progress store ([progress.py]) *)

Module Progress.

(** A [topic] argument is [None], a directory name, or the pair
    [(dir_name, display_name)] that [PathManager.get_topics] produces. *)
Inductive topic_arg :=
| TopicNone
| TopicStr (name : string)
| TopicPair (dir_name display_name : string).

(** Truthiness of a topic argument: a pair is never empty. *)
Definition topic_truthy (t : topic_arg) : bool :=
  match t with
  | TopicNone => false
  | TopicStr s => Py.nonempty s
  | TopicPair _ _ => true
  end.

(** The value of [stats["attempts"][key]]. *)
Record attempt := { total : Z; correct : Z }.

(** [self.stats]: the [attempts] dictionary and the two [totals]. *)
Record stats_t := {
  attempts : gmap string attempt;
  total_attempts : Z;
  correct_attempts : Z
}.

(** [self.progress]: [completed] is always present, [hints_used] only once
    a hint was marked or the store was reset. *)
Record progress_t := {
  completed : gmap string bool;
  hints_used : option (gmap string bool)
}.

Record ProgressManager := {
  stats : stats_t;
  progress : progress_t
}.

(** The store of a first start: the defaults of [_load_stats] and
    [_load_progress]. *)
Definition empty_store : ProgressManager :=
  {| stats := {| attempts := ∅; total_attempts := 0; correct_attempts := 0 |};
     progress := {| completed := ∅; hints_used := None |} |}.

Definition _create_question_key
  (module difficulty : option string) (topic : topic_arg)
  (question : option string) : string :=
  let topic :=
    match topic with
    | TopicPair dir_name _ => dir_name
    | TopicStr s => s
    | TopicNone => "None"
    end in
  if Py.truthy difficulty
  then Py.fmt module +:+ "/" +:+ Py.fmt difficulty +:+ "/" +:+ topic
         +:+ "/" +:+ Py.fmt question
  else Py.fmt module +:+ "/None/" +:+ topic +:+ "/" +:+ Py.fmt question.

(** The guard [if not module or not topic or not question]. *)
Definition missing (module : option string) (topic : topic_arg)
  (question : option string) : bool :=
  negb (Py.truthy module) || negb (topic_truthy topic)
  || negb (Py.truthy question).

Definition record_attempt (pm : ProgressManager)
  (module difficulty : option string) (topic : topic_arg)
  (question : option string) (is_correct : bool) : bool * ProgressManager :=
  if missing module topic question then (false, pm)
  else
    let key := _create_question_key module difficulty topic question in
    let st := stats pm in
    let a := match attempts st !! key with
             | Some a => a
             | None => {| total := 0; correct := 0 |}
             end in
    let a' := {| total := total a + 1;
                 correct := if is_correct then correct a + 1 else correct a |} in
    (true,
     {| stats := {| attempts := <[key := a']> (attempts st);
                    total_attempts := total_attempts st + 1;
                    correct_attempts :=
                      if is_correct then correct_attempts st + 1
                      else correct_attempts st |};
        progress := progress pm |}).

Definition mark_question_completed (pm : ProgressManager)
  (module difficulty : option string) (topic : topic_arg)
  (question : option string) : bool * ProgressManager :=
  if missing module topic question then (false, pm)
  else
    let key := _create_question_key module difficulty topic question in
    (true,
     {| stats := stats pm;
        progress := {| completed := <[key := true]> (completed (progress pm));
                       hints_used := hints_used (progress pm) |} |}).

Definition is_question_completed (pm : ProgressManager)
  (module difficulty : option string) (topic : topic_arg)
  (question : option string) : bool :=
  if missing module topic question then false
  else
    let key := _create_question_key module difficulty topic question in
    default false (completed (progress pm) !! key).

(** The [total] and [correct] entries of the dictionary returned by
    [get_question_stats]. *)
Definition get_question_stats (pm : ProgressManager)
  (module difficulty : option string) (topic : topic_arg)
  (question : option string) : attempt :=
  let key := _create_question_key module difficulty topic question in
  match attempts (stats pm) !! key with
  | None => {| total := 0; correct := 0 |}
  | Some st => {| total := total st; correct := correct st |}
  end.

(** The loop shared by the three rollups: sum the records of the keys that
    start with [prefix].  The result is the pair
    [(total_attempts, correct_attempts)]. *)
Definition rollup (pm : ProgressManager) (prefix : string) : Z * Z :=
  map_fold
    (λ key st acc,
       if Py.startswith prefix key
       then (acc.1 + total st, acc.2 + correct st)
       else acc)
    (0, 0) (attempts (stats pm)).

Definition get_topic_stats (pm : ProgressManager)
  (module difficulty : option string) (topic : topic_arg) : Z * Z :=
  let prefix :=
    Py.init (_create_question_key module difficulty topic (Some "")) in
  rollup pm prefix.

Definition get_difficulty_stats (pm : ProgressManager)
  (module difficulty : option string) : Z * Z :=
  rollup pm (Py.fmt module +:+ "/" +:+ Py.fmt difficulty +:+ "/").

Definition get_module_stats (pm : ProgressManager)
  (module : option string) : Z * Z :=
  rollup pm (Py.fmt module +:+ "/").

(** The pair [(total_attempts, correct_attempts)] of [get_overall_stats]. *)
Definition get_overall_stats (pm : ProgressManager) : Z * Z :=
  (total_attempts (stats pm), correct_attempts (stats pm)).

Definition reset (pm : ProgressManager) : bool * ProgressManager :=
  (true,
   {| stats := {| attempts := ∅; total_attempts := 0; correct_attempts := 0 |};
      progress := {| completed := ∅; hints_used := Some ∅ |} |}).

Definition mark_hint_used (pm : ProgressManager)
  (module difficulty : option string) (topic : topic_arg)
  (question : option string) : bool * ProgressManager :=
  if missing module topic question then (false, pm)
  else
    let key := _create_question_key module difficulty topic question in
    let hints := default ∅ (hints_used (progress pm)) in
    (true,
     {| stats := stats pm;
        progress := {| completed := completed (progress pm);
                       hints_used := Some (<[key := true]> hints) |} |}).

Definition is_hint_used (pm : ProgressManager)
  (module difficulty : option string) (topic : topic_arg)
  (question : option string) : bool :=
  if missing module topic question then false
  else
    let key := _create_question_key module difficulty topic question in
    default false (default ∅ (hints_used (progress pm)) !! key).

(** The mutating operations of the store, and a run of them. *)
Inductive op :=
| RecordAttempt (module difficulty : option string) (topic : topic_arg)
    (question : option string) (is_correct : bool)
| MarkQuestionCompleted (module difficulty : option string)
    (topic : topic_arg) (question : option string)
| MarkHintUsed (module difficulty : option string) (topic : topic_arg)
    (question : option string)
| Reset.

Definition step (pm : ProgressManager) (o : op) : bool * ProgressManager :=
  match o with
  | RecordAttempt m d t q c => record_attempt pm m d t q c
  | MarkQuestionCompleted m d t q => mark_question_completed pm m d t q
  | MarkHintUsed m d t q => mark_hint_used pm m d t q
  | Reset => reset pm
  end.

Definition run (pm : ProgressManager) (ops : list op) : ProgressManager :=
  fold_left (λ pm o, (step pm o).2) ops pm.

(** One summand of a rollup. *)
Definition add_attempt (st : attempt) (acc : Z * Z) : Z * Z :=
  (acc.1 + total st, acc.2 + correct st).

(** The sum of the per-key records, field by field. *)
Definition sum_attempts (m : gmap string attempt) : Z * Z :=
  map_fold (λ _, add_attempt) (0, 0) m.

(** The global totals are the sum of the per-key records. *)
Definition totals_consistent (pm : ProgressManager) : Prop :=
  get_overall_stats pm = sum_attempts (attempts (stats pm)).

(** The second component of a key: the difficulty, or the literal [None]
    when the difficulty is [None] or empty. *)
Definition difficulty_text (difficulty : option string) : string :=
  if Py.truthy difficulty then Py.fmt difficulty else "None".


(** Every record counts no negative number of correct attempts, and a key
    flagged as completed has a record with a correct attempt. *)
Definition completion_justified (pm : ProgressManager) : Prop :=
  (∀ k a, attempts (stats pm) !! k = Some a → 0 ≤ correct a)
  ∧ (∀ k, completed (progress pm) !! k = Some true →
          ∃ a, attempts (stats pm) !! k = Some a ∧ 1 ≤ correct a).

End Progress.

(** ** The content resolver ([I-CTF-Code/paths.py]) *)

Module Paths.

(** [re.search(r'Topic\s*(\d+)', dir_name)], returning [int(match.group(1))].
    At one position: the literal, then the longest run of white space, then
    the longest run of digits, which must not be empty.  White space and
    digits are disjoint, so giving back white space never helps. *)
Fixpoint skip_spaces (s : string) : string :=
  match s with
  | String c s' => if Py.isspace c then skip_spaces s' else s
  | EmptyString => EmptyString
  end.

Fixpoint take_digits (s : string) : string :=
  match s with
  | String c s' => if Py.isdigit c then String c (take_digits s') else EmptyString
  | EmptyString => EmptyString
  end.

Definition match_here (s : string) : option Z :=
  if Py.startswith "Topic" s then
    match take_digits (skip_spaces (substring 5 (String.length s - 5) s)) with
    | EmptyString => None
    | digits => Some (Py.int_acc digits 0)
    end
  else None.

Fixpoint re_search (s : string) : option Z :=
  match match_here s with
  | Some n => Some n
  | None =>
      match s with
      | EmptyString => None
      | String _ s' => re_search s'
      end
  end.

(** The local function [sort_key] of [get_topics], on the directory name. *)
Definition sort_key (topic_tuple : string * string) : Z :=
  let dir_name := topic_tuple.1 in
  match re_search dir_name with
  | Some n => n
  | None => 999
  end.

(** [list.sort(key=...)] is stable: an element goes in front of the first
    later element whose key is not smaller. *)
Fixpoint insert_by {A} (key : A → Z) (x : A) (l : list A) : list A :=
  match l with
  | [] => [x]
  | y :: l' => if key x <=? key y then x :: l else y :: insert_by key x l'
  end.

Fixpoint sort_by {A} (key : A → Z) (l : list A) : list A :=
  match l with
  | [] => []
  | x :: l' => insert_by key x (sort_by key l')
  end.

(** Ascending keys, each element against all later ones. *)
Definition ascending {A} (key : A → Z) (l : list A) : Prop :=
  StronglySorted (λ x y, key x ≤ key y) l.

(** One entry of [os.listdir(path)] with what the loop asks the file system
    about it: whether it is a directory, and the text of its
    [topic_name.txt] when that file exists and can be read. *)
Record dir_entry := {
  item : string;
  isdir : bool;
  topic_name_txt : option string
}.

Definition topic_tuple_of (e : dir_entry) : string * string :=
  match topic_name_txt e with
  | Some text =>
      let custom_name := Py.strip text in
      if Py.nonempty custom_name then (item e, custom_name)
      else (item e, item e)
  | None => (item e, item e)
  end.

(** [get_topics] on a cache miss, for a module and difficulty whose path
    exists and lists as [listing]. *)
Definition get_topics (listing : list dir_entry) : list (string * string) :=
  let topics :=
    map topic_tuple_of
      (filter (λ e, isdir e && Py.startswith "Topic" (item e) = true) listing) in
  sort_by sort_key topics.

Definition _extract_content (text : string) (start_char end_char : ascii)
  : string :=
  if negb (Py.nonempty text) then ""
  else
    let start_index := Py.find start_char text 0 in
    let end_index :=
      Py.find end_char text
        (if negb (start_index =? -1) then start_index + 1 else 0) in
    if negb (start_index =? -1) && negb (end_index =? -1)
       && (start_index <? end_index)
    then Py.strip (Py.slice text (start_index + 1) end_index)
    else "".

(** [load_question_content] once the question file was read: the pair
    [(formatted_content, actual_question)]. *)
Definition load_question_content (question_content : string)
  : string * string :=
  let description := _extract_content question_content "[" "]" in
  let actual_question := _extract_content question_content "{" "}" in
  if negb (Py.nonempty description) && negb (Py.nonempty actual_question)
  then (question_content, question_content)
  else
    let formatted_content := "" in
    let formatted_content :=
      if Py.nonempty description
      then formatted_content +:+ description +:+ Py.blank_line
      else formatted_content in
    let formatted_content :=
      if Py.nonempty actual_question
      then formatted_content +:+ actual_question
      else formatted_content in
    (formatted_content, actual_question).

(** The first two assignments shared by [get_correct_answer] and
    [get_hint_content]; [None] stands for the [IndexError] of
    [base_name[0]] on an empty [base_name]. *)
Definition base_name (question_file : string) : string :=
  Py.replace "PS_" "" question_file.

Definition identifier (question_file : string) : option string :=
  let base_name := base_name question_file in
  if Py.contains "_" base_name
  then head (Py.split "_" base_name)
  else match base_name with
       | String c _ => Some (String c EmptyString)
       | EmptyString => None
       end.

(** The identifier as the specification words it: strip a leading [PS_]
    only, then take the token before the first underscore, or the first
    character when there is no underscore. *)
Definition strip_leading_PS (question_file : string) : string :=
  if Py.startswith "PS_" question_file
  then substring 3 (String.length question_file - 3) question_file
  else question_file.

Definition identifier_spec (question_file : string) : option string :=
  let stripped := strip_leading_PS question_file in
  if Py.contains "_" stripped
  then head (Py.split "_" stripped)
  else match stripped with
       | String c _ => Some (String c EmptyString)
       | EmptyString => None
       end.

(** [get_questions]; [topic_path] is what [get_topic_path] returned, and
    [questions_dir] and [prompt_dir] are the listings of the [Questions] and
    [Prompt or Not/Prompt Style] directories of the topic, [None] for one
    that does not exist or cannot be listed. *)
Definition txt_files (q_type : string) (listing : option (list string))
  : list (string * string) :=
  match listing with
  | Some items =>
      map (λ item, (q_type, item))
        (filter (λ item, Py.endswith ".txt" item = true) (Py.sorted items))
  | None => []
  end.

Definition get_questions (module : option string)
  (topic : Progress.topic_arg) (topic_path : option string)
  (questions_dir prompt_dir : option (list string))
  : list (string * string) :=
  if negb (Py.truthy module) || negb (Progress.topic_truthy topic) then []
  else if negb (Py.truthy topic_path) then []
  else txt_files "regular" questions_dir ++ txt_files "prompt" prompt_dir.

End Paths.

(** ** The callers of the store ([I-CTF-Code/app.py]) *)

Module App.

Import Progress.

(** The fields of [CTFApplication] that reach the store. *)
Record CTFApplication := {
  current_module : option string;
  current_difficulty : option string;
  current_topic : topic_arg;
  progress : ProgressManager
}.

(** The comparison inside [check_answer]: the list [correct_options] and the
    flag [is_correct]. *)
Definition correct_options (correct_answer : string) : list string :=
  map (λ option, Py.strip (Py.lower option)) (Py.split "|" correct_answer).

Definition is_correct (correct_answer user_answer : string) : bool :=
  let user_answer := Py.strip (Py.lower user_answer) in
  bool_decide (user_answer ∈ correct_options correct_answer).

(** What [check_answer] tells the user. *)
Inductive verdict :=
| EnterAnswer
| NoAnswerFile
| Judged (is_correct : bool).

(** [check_answer]; [correct_answer] is what [paths.get_correct_answer]
    returned for the question, [has_result_label] whether the widgets of the
    question are registered. *)
Definition check_answer (app : CTFApplication) (question_file : option string)
  (user_answer : string) (correct_answer : option string)
  (has_result_label : bool) : verdict * CTFApplication :=
  if negb (Py.nonempty (Py.strip user_answer)) then (EnterAnswer, app)
  else
    match correct_answer with
    | None => (NoAnswerFile, app)
    | Some correct_answer =>
        let is_correct := is_correct correct_answer user_answer in
        let pm :=
          (record_attempt (progress app) (current_module app)
             (current_difficulty app) (current_topic app) question_file
             is_correct).2 in
        let pm :=
          if has_result_label && is_correct
          then (mark_question_completed pm (current_module app)
                  (current_difficulty app) (current_topic app)
                  question_file).2
          else pm in
        (Judged is_correct,
         {| current_module := current_module app;
            current_difficulty := current_difficulty app;
            current_topic := current_topic app;
            progress := pm |})
    end.

Definition with_progress (app : CTFApplication) (pm : ProgressManager)
  : CTFApplication :=
  {| current_module := current_module app;
     current_difficulty := current_difficulty app;
     current_topic := current_topic app;
     progress := pm |}.

Definition penalty (app : CTFApplication) (question_file : option string)
  (pm : ProgressManager) : ProgressManager :=
  (record_attempt pm (current_module app) (current_difficulty app)
     (current_topic app) question_file false).2.

(** [show_hint]; [hint_content] is what [paths.get_hint_content] returned. *)
Definition show_hint (app : CTFApplication) (question_file : option string)
  (hint_content : option string) : CTFApplication :=
  if Py.truthy hint_content then
    if bool_decide (current_difficulty app = Some "Intermediate")
    then with_progress app (penalty app question_file (progress app))
    else if bool_decide (current_difficulty app = Some "Advanced")
    then with_progress app
           (penalty app question_file
              (penalty app question_file
                 (penalty app question_file (progress app))))
    else app
  else app.

(** [reset_progress]; [confirmed] is the answer to the confirmation box. *)
Definition reset_progress (app : CTFApplication) (confirmed : bool)
  : CTFApplication :=
  if confirmed then with_progress app (reset (progress app)).2 else app.

(** What the user can do to the application as far as the store sees it:
    move to another module, difficulty and topic, submit an answer, ask for a
    hint, reset. *)
Inductive event :=
| Navigate (module difficulty : option string) (topic : topic_arg)
| Submit (question_file : option string) (user_answer : string)
    (correct_answer : option string) (has_result_label : bool)
| Hint (question_file : option string) (hint_content : option string)
| ResetProgress (confirmed : bool).

Definition handle (app : CTFApplication) (e : event) : CTFApplication :=
  match e with
  | Navigate m d t =>
      {| current_module := m; current_difficulty := d; current_topic := t;
         progress := progress app |}
  | Submit q u a w => (check_answer app q u a w).2
  | Hint q h => show_hint app q h
  | ResetProgress c => reset_progress app c
  end.

Definition start : CTFApplication :=
  {| current_module := None; current_difficulty := None;
     current_topic := TopicNone; progress := empty_store |}.

Definition run (evs : list event) : CTFApplication :=
  fold_left handle evs start.

End App.

(** ** Vocabulary for the store properties *)

Module StoreSpec.

Import Progress.

(** The loop of [rollup] over a dictionary of attempt records. *)
Definition rollup_of (prefix : string) (m : gmap string attempt) : Z * Z :=
  map_fold
    (λ key st acc,
       if Py.startswith prefix key
       then (acc.1 + total st, acc.2 + correct st)
       else acc)
    (0, 0) m.

(** What one attempt adds to a pair [(total, correct)]. *)
Definition gain (is_correct : bool) (acc : Z * Z) : Z * Z :=
  (acc.1 + 1, if is_correct then acc.2 + 1 else acc.2).

(** Every record has at least one attempt and no more correct attempts than
    attempts, and so have the global totals. *)
Definition records_wellformed (pm : ProgressManager) : Prop :=
  (∀ k a, attempts (stats pm) !! k = Some a →
          0 ≤ correct a ≤ total a ∧ 1 ≤ total a)
  ∧ 0 ≤ correct_attempts (stats pm) ≤ total_attempts (stats pm).

(** The operations other than [reset]. *)
Definition keeps_progress (o : op) : bool :=
  match o with Reset => false | _ => true end.

(** Pairs compared field by field. *)
Definition pair_le (x y : Z * Z) : Prop := x.1 ≤ y.1 ∧ x.2 ≤ y.2.

End StoreSpec.

(** ** The configuration store ([config.py]) *)

Module Config.

(** [self.config]: the base directory ([None] when unset) and the
    [directories] list, a key that a loaded file may lack. *)
Record config_t := {
  base_directory : option string;
  directories : option (list string)
}.

(** The default of [load] and the value [clear_all] installs. *)
Definition default_config : config_t :=
  {| base_directory := None; directories := Some [] |}.

Definition get_base_directory (config : config_t) : option string :=
  base_directory config.

Definition get_directories (config : config_t) : list string :=
  default [] (directories config).

(** [l.remove(x)] for an [x] that is in [l]: the first occurrence goes. *)
Fixpoint remove_first (x : string) (l : list string) : list string :=
  match l with
  | [] => []
  | y :: l' => if bool_decide (y = x) then l' else y :: remove_first x l'
  end.

(** The guard [if not directory or not os.path.exists(directory)];
    [path_exists] is [os.path.exists] at the time of the call. *)
Definition invalid (path_exists : string → bool) (directory : option string)
  : bool :=
  match directory with
  | Some d => negb (Py.nonempty d) || negb (path_exists d)
  | None => true
  end.

(** In the mutators, [saved] is what [self.save()] returns. *)
Definition set_base_directory (path_exists : string → bool) (saved : bool)
  (config : config_t) (directory : option string) : bool * config_t :=
  match directory with
  | Some d =>
      if invalid path_exists directory then (false, config)
      else
        (saved,
         {| base_directory := Some d;
            directories :=
              if bool_decide (d ∈ get_directories config)
              then directories config
              else Some (get_directories config ++ [d]) |})
  | None => (false, config)
  end.

Definition add_directory (path_exists : string → bool) (saved : bool)
  (config : config_t) (directory : option string) : bool * config_t :=
  match directory with
  | Some d =>
      if invalid path_exists directory then (false, config)
      else if bool_decide (d ∈ get_directories config)
      then (true,
            {| base_directory := base_directory config;
               directories := Some (get_directories config) |})
      else (saved,
            {| base_directory := base_directory config;
               directories := Some (get_directories config ++ [d]) |})
  | None => (false, config)
  end.

Definition remove_directory (saved : bool) (config : config_t)
  (directory : string) : bool * config_t :=
  match directories config with
  | Some dirs =>
      if bool_decide (directory ∈ dirs) then
        let dirs := remove_first directory dirs in
        (saved,
         {| base_directory :=
              if bool_decide (base_directory config = Some directory)
              then head dirs
              else base_directory config;
            directories := Some dirs |})
      else (false, config)
  | None => (false, config)
  end.

Definition clear_all (saved : bool) (config : config_t) : bool * config_t :=
  (saved, default_config).

(** [import_config]; [loaded] is the dictionary that [json.load] read from
    the import file, [None] when the file cannot be read as one. *)
Definition import_config (path_exists : string → bool) (saved : bool)
  (config : config_t) (import_path : string) (loaded : option config_t)
  : bool * config_t :=
  if negb (path_exists import_path) then (false, config)
  else
    match loaded with
    | None => (false, config)
    | Some new_config =>
        let valid_dirs :=
          List.filter path_exists (get_directories new_config) in
        (saved,
         {| base_directory :=
              match base_directory new_config with
              | Some b => if path_exists b then Some b else head valid_dirs
              | None => None
              end;
            directories := Some valid_dirs |})
    end.

(** The calls that edit the directory list, each with the file system and
    the outcome of the save it meets. *)
Inductive op :=
| SetBaseDirectory (path_exists : string → bool) (saved : bool)
    (directory : option string)
| AddDirectory (path_exists : string → bool) (saved : bool)
    (directory : option string)
| RemoveDirectory (saved : bool) (directory : string)
| ClearAll (saved : bool).

Definition step (config : config_t) (o : op) : bool * config_t :=
  match o with
  | SetBaseDirectory e s d => set_base_directory e s config d
  | AddDirectory e s d => add_directory e s config d
  | RemoveDirectory s d => remove_directory s config d
  | ClearAll s => clear_all s config
  end.

Definition run (config : config_t) (ops : list op) : config_t :=
  fold_left (λ config o, (step config o).2) ops config.

(** No directory is listed twice and the base directory, when set, is
    listed. *)
Definition consistent (config : config_t) : Prop :=
  NoDup (get_directories config)
  ∧ ∀ b, base_directory config = Some b → b ∈ get_directories config.

End Config.

(** ** Completion of topics, difficulties and modules ([I-CTF-Code/app.py]) *)

Module Completion.

Import Progress.

(** [self.difficulties]. *)
Definition difficulties : list string :=
  ["Beginner"; "Intermediate"; "Advanced"; "Insane"].

(** [topic[0] if isinstance(topic, tuple) and len(topic) == 2 else topic]. *)
Definition topic_dir_of (topic : topic_arg) : topic_arg :=
  match topic with
  | TopicPair dir_name _ => TopicStr dir_name
  | _ => topic
  end.

Section Resolver.

(** What the path manager answers at the time of the call:
    [paths.get_topics], [paths.get_questions], and whether
    [paths.get_difficulty_path] names an existing directory. *)
Variable get_topics : option string → option string → list (string * string).
Variable get_questions :
  option string → option string → topic_arg → list (string * string).
Variable difficulty_exists : option string → string → bool.

Variable pm : ProgressManager.

Definition is_topic_completed (module difficulty : option string)
  (topic : topic_arg) : bool :=
  let topic_dir := topic_dir_of topic in
  let questions := get_questions module difficulty topic_dir in
  match questions with
  | [] => false
  | _ =>
      forallb
        (λ q, is_question_completed pm module difficulty topic_dir (Some q.2))
        questions
  end.

Definition is_difficulty_completed (module difficulty : option string)
  : bool :=
  let topics := get_topics module difficulty in
  match topics with
  | [] => false
  | _ =>
      forallb
        (λ topic,
           is_topic_completed module difficulty (TopicPair topic.1 topic.2))
        topics
  end.

Definition is_module_completed (module : option string) : bool :=
  if negb (Py.truthy module) then false
  else if bool_decide (module = Some "Getting Started") then
    let topics := get_topics module None in
    match topics with
    | [] => false
    | _ =>
        forallb
          (λ topic,
             is_topic_completed module None (TopicPair topic.1 topic.2))
          topics
    end
  else
    forallb
      (λ difficulty,
         if difficulty_exists module difficulty
         then is_difficulty_completed module (Some difficulty)
         else true)
      difficulties.

(** The two counters of [calculate_module_completion] over the topics of
    one difficulty: [(completed_questions, total_questions)]. *)
Definition count_topics (module difficulty : option string)
  (topics : list (string * string)) (acc : Z * Z) : Z * Z :=
  fold_left
    (λ acc topic,
       let topic_dir := TopicStr topic.1 in
       let questions := get_questions module difficulty topic_dir in
       fold_left
         (λ acc q,
            if is_question_completed pm module difficulty topic_dir (Some q.2)
            then (acc.1 + 1, acc.2)
            else acc)
         questions
         (acc.1, acc.2 + Z.of_nat (length questions)))
    topics acc.

(** [calculate_module_completion] up to its last step: the pair
    [(completed_questions, total_questions)], from which the function
    returns 0 when [total_questions] is 0 and the float
    [completed_questions / total_questions * 100] otherwise. *)
Definition module_question_counts (module : option string) : Z * Z :=
  if negb (Py.truthy module) then (0, 0)
  else if bool_decide (module = Some "Getting Started") then
    count_topics module None (get_topics module None) (0, 0)
  else
    fold_left
      (λ acc difficulty,
         if difficulty_exists module difficulty
         then count_topics module (Some difficulty)
                (get_topics module (Some difficulty)) acc
         else acc)
      difficulties (0, 0).

End Resolver.

End Completion.

(** ** The memo of [PathManager.get_topics] *)

Module TopicCache.

(** [f"{module}:{difficulty}"]. *)
Definition cache_key (module difficulty : option string) : string :=
  Py.fmt module +:+ ":" +:+ Py.fmt difficulty.

(** [PathManager.get_topics] with its memo [self.topic_display_names]: the
    list it returns and the memo it leaves.  [listing] is the listing of the
    directory of the module and difficulty with what the scan asks about
    each entry, [None] when [get_difficulty_path] gives no existing path or
    the listing fails.  Only a finished scan is stored. *)
Definition get_topics
  (topic_display_names : gmap string (list (string * string)))
  (module difficulty : option string)
  (listing : option (list Paths.dir_entry))
  : list (string * string) * gmap string (list (string * string)) :=
  if negb (Py.truthy module) then ([], topic_display_names)
  else
    let cache_key := cache_key module difficulty in
    match topic_display_names !! cache_key with
    | Some topics => (topics, topic_display_names)
    | None =>
        match listing with
        | None => ([], topic_display_names)
        | Some listing =>
            let topics := Paths.get_topics listing in
            (topics, <[cache_key := topics]> topic_display_names)
        end
    end.

(** What touches the memo: a [get_topics] call, and a successful
    [set_base_directory], which empties it. *)
Inductive call :=
| GetTopics (module difficulty : option string)
    (listing : option (list Paths.dir_entry))
| SetBaseDirectory.

Definition step (topic_display_names : gmap string (list (string * string)))
  (c : call) : gmap string (list (string * string)) :=
  match c with
  | GetTopics module difficulty listing =>
      (get_topics topic_display_names module difficulty listing).2
  | SetBaseDirectory => ∅
  end.

(** The memo after a sequence of calls on a fresh [PathManager]. *)
Definition run (calls : list call) : gmap string (list (string * string)) :=
  fold_left step calls ∅.

(** Every pair has a directory name that starts with [Topic] and a display
    name that is not empty. *)
Definition well_named (topics : list (string * string)) : Prop :=
  ∀ dir_name display_name,
    (dir_name, display_name) ∈ topics →
    Py.startswith "Topic" dir_name = true ∧ display_name ≠ "".

End TopicCache.

(** * Properties *)

(** ** Strings *)

Section StringFacts.

Implicit Types (s r p : string) (c : ascii).

Lemma app_nil_l s : "" +:+ s = s.
Proof. reflexivity. Qed.

Lemma app_cons c s r : String c s +:+ r = String c (s +:+ r).
Proof. reflexivity. Qed.

Lemma app_nil_r s : s +:+ "" = s.
Proof. induction s as [|c s IH]; [done|]. by rewrite app_cons, IH. Qed.

Lemma app_assoc s r p : (s +:+ r) +:+ p = s +:+ (r +:+ p).
Proof. induction s as [|c s IH]; [done|]. by rewrite !app_cons, IH. Qed.

Lemma app_length s r :
  String.length (s +:+ r) = (String.length s + String.length r)%nat.
Proof. induction s as [|c s IH]; [done|]. rewrite app_cons. simpl. by rewrite IH. Qed.



Lemma prefix_app p s : String.prefix p (p +:+ s) = true.
Proof.
  induction p as [|c p IH]; [by destruct s|].
  rewrite app_cons. simpl. by destruct (ascii_dec c c).
Qed.

Lemma prefix_inv p s : String.prefix p s = true → ∃ r, s = p +:+ r.
Proof.
  revert s. induction p as [|c p IH]; intros s H.
  - by exists s.
  - destruct s as [|a s]; [done|]. simpl in H.
    destruct (ascii_dec c a) as [->|]; [|done].
    destruct (IH _ H) as [r ->]. by exists r.
Qed.

Lemma startswith_iff p s : Py.startswith p s = true ↔ ∃ r, s = p +:+ r.
Proof.
  split; [apply prefix_inv|]. intros [r ->]. apply prefix_app.
Qed.

End StringFacts.

(** ** The composite key *)

Section Key.

Import Progress.

Lemma key_form module difficulty topic question :
  _create_question_key module difficulty topic question =
  Py.fmt module +:+ "/" +:+ difficulty_text difficulty +:+ "/"
    +:+ match topic with
        | TopicPair dir_name _ => dir_name
        | TopicStr s => s
        | TopicNone => "None"
        end
    +:+ "/" +:+ Py.fmt question.
Proof.
  unfold _create_question_key, difficulty_text.
  by destruct (Py.truthy difficulty).
Qed.






End Key.




(** ** The store *)

Section Store.

Import Progress.

Implicit Types (pm : ProgressManager) (m : gmap string attempt).

Lemma add_attempt_comm (a b : attempt) (acc : Z * Z) :
  add_attempt a (add_attempt b acc) = add_attempt b (add_attempt a acc).
Proof. unfold add_attempt. simpl. f_equal; lia. Qed.

Lemma sum_attempts_empty : sum_attempts ∅ = (0, 0).
Proof. unfold sum_attempts. by rewrite map_fold_empty. Qed.

Lemma sum_attempts_insert_fresh m k a :
  m !! k = None →
  sum_attempts (<[k:=a]> m) = add_attempt a (sum_attempts m).
Proof.
  intros Hk. unfold sum_attempts.
  rewrite (map_fold_insert_L (λ _, add_attempt)); [done| |done].
  intros. apply add_attempt_comm.
Qed.

Lemma sum_attempts_delete m k a :
  m !! k = Some a →
  sum_attempts m = add_attempt a (sum_attempts (delete k m)).
Proof.
  intros Hk. unfold sum_attempts.
  rewrite (map_fold_delete_L (λ _, add_attempt) _ k a); [done| |done].
  intros. apply add_attempt_comm.
Qed.

(** Storing a record under [k] replaces the share of [k] in the sum. *)
Lemma sum_attempts_insert m k a :
  let old := default {| total := 0; correct := 0 |} (m !! k) in
  sum_attempts (<[k:=a]> m) =
  ((sum_attempts m).1 - total old + total a,
   (sum_attempts m).2 - correct old + correct a).
Proof.
  destruct (m !! k) as [old|] eqn:Hk; simpl.
  - rewrite <- (insert_delete_eq m), sum_attempts_insert_fresh
      by apply lookup_delete_eq.
    rewrite (sum_attempts_delete m k old) by done.
    unfold add_attempt. simpl. f_equal; lia.
  - rewrite sum_attempts_insert_fresh by done.
    unfold add_attempt. simpl. f_equal; lia.
Qed.

Lemma record_attempt_consistent pm module difficulty topic question c :
  totals_consistent pm →
  totals_consistent (record_attempt pm module difficulty topic question c).2.
Proof.
  unfold totals_consistent, get_overall_stats, record_attempt.
  destruct (missing module topic question); [done|]. simpl.
  intros H. rewrite sum_attempts_insert, <- H.
  set (key := _create_question_key _ _ _ _).
  destruct (attempts (stats pm) !! key) as [old|]; destruct c; simpl;
    f_equal; lia.
Qed.

Lemma step_consistent pm o :
  totals_consistent pm → totals_consistent (step pm o).2.
Proof.
  destruct o as [m d t q c|m d t q|m d t q|]; simpl.
  - apply record_attempt_consistent.
  - unfold mark_question_completed. by destruct (missing m t q).
  - unfold mark_hint_used. by destruct (missing m t q).
  - intros _. unfold totals_consistent, get_overall_stats. simpl.
    by rewrite sum_attempts_empty.
Qed.

(** What holds of a store and is kept by every operation holds after a run. *)
Lemma run_invariant (P : ProgressManager → Prop) :
  (∀ pm o, P pm → P (step pm o).2) →
  ∀ ops pm, P pm → P (run pm ops).
Proof.
  intros Hstep ops. induction ops as [|o ops IH]; intros pm HP; [done|].
  simpl. apply IH, Hstep, HP.
Qed.

End Store.

(** C3: from the empty store, after any sequence of [record_attempt],
    [mark_question_completed], [mark_hint_used] and [reset], the totals that
    [get_overall_stats] returns are the sums of the [total] and [correct]
    fields of all per-key attempt records.  The sequence is arbitrary, so
    this holds after each of its operations. *)
Theorem totals_equal_sum_of_records (ops : list Progress.op) :
  Progress.get_overall_stats (Progress.run Progress.empty_store ops)
  = Progress.sum_attempts
      (Progress.attempts (Progress.stats (Progress.run Progress.empty_store ops))).
Proof.
  apply (run_invariant Progress.totals_consistent).
  - apply step_consistent.
  - unfold Progress.totals_consistent. simpl. by rewrite sum_attempts_empty.
Qed.

(** C9: whatever the store held, [reset] returns [True] and leaves a store in
    which no question is completed, no hint is used, every question has
    [total = 0] and [correct = 0], and the overall totals are zero: the
    statistics and the completion and hint dictionaries are all empty in the
    one store that [reset] returns. *)
Theorem reset_is_total (pm : Progress.ProgressManager) :
  (Progress.reset pm).1 = true
  ∧ Progress.attempts (Progress.stats (Progress.reset pm).2) = ∅
  ∧ Progress.completed (Progress.progress (Progress.reset pm).2) = ∅
  ∧ Progress.hints_used (Progress.progress (Progress.reset pm).2) = Some ∅
  ∧ Progress.get_overall_stats (Progress.reset pm).2 = (0, 0)
  ∧ ∀ module difficulty topic question,
      Progress.is_question_completed (Progress.reset pm).2
        module difficulty topic question = false
      ∧ Progress.is_hint_used (Progress.reset pm).2
          module difficulty topic question = false
      ∧ Progress.get_question_stats (Progress.reset pm).2
          module difficulty topic question
        = {| Progress.total := 0; Progress.correct := 0 |}.
Proof.
  do 5 (split; [done|]). intros module difficulty topic question.
  split; [|split].
  - unfold Progress.is_question_completed.
    destruct (Progress.missing module topic question); [done|].
    simpl. by rewrite lookup_empty.
  - unfold Progress.is_hint_used.
    destruct (Progress.missing module topic question); [done|].
    simpl. by rewrite lookup_empty.
  - unfold Progress.get_question_stats. simpl. by rewrite lookup_empty.
Qed.

(** The guard of the three mutators fires exactly on an empty or [None]
    module, topic or question. *)
Lemma missing_iff module topic question :
  Progress.missing module topic question = true ↔
  (module = None ∨ module = Some "")
  ∨ (topic = Progress.TopicNone ∨ topic = Progress.TopicStr "")
  ∨ (question = None ∨ question = Some "").
Proof.
  unfold Progress.missing.
  destruct module as [[|??]|], topic as [|[|??]|??], question as [[|??]|];
    cbn; intuition (try congruence; auto).
Qed.

(** C10: when the module, the topic or the question is empty or [None],
    [record_attempt], [mark_question_completed] and [mark_hint_used] return
    [False] and hand back the store they were given: attempt records, totals,
    completion flags and hint flags are those of before, so every later query
    answers as before. *)
Theorem invalid_call_changes_nothing
  (pm : Progress.ProgressManager) (module difficulty : option string)
  (topic : Progress.topic_arg) (question : option string) (is_correct : bool) :
  (module = None ∨ module = Some "")
  ∨ (topic = Progress.TopicNone ∨ topic = Progress.TopicStr "")
  ∨ (question = None ∨ question = Some "") →
  Progress.record_attempt pm module difficulty topic question is_correct
  = (false, pm)
  ∧ Progress.mark_question_completed pm module difficulty topic question
    = (false, pm)
  ∧ Progress.mark_hint_used pm module difficulty topic question = (false, pm).
Proof.
  intros H%missing_iff.
  unfold Progress.record_attempt, Progress.mark_question_completed,
    Progress.mark_hint_used.
  by rewrite H.
Qed.

Lemma invalid_call_changes_nothing_witness :
  let pm :=
    (Progress.record_attempt Progress.empty_store (Some "Cryptography")
       (Some "Beginner") (Progress.TopicStr "Topic1") (Some "A_Question.txt")
       true).2 in
  Progress.record_attempt pm (Some "Cryptography") (Some "Beginner")
    (Progress.TopicStr "Topic1") (Some "") true = (false, pm)
  ∧ Progress.mark_question_completed pm (Some "Cryptography") (Some "Beginner")
      (Progress.TopicStr "Topic1") (Some "") = (false, pm)
  ∧ Progress.mark_hint_used pm (Some "Cryptography") (Some "Beginner")
      (Progress.TopicStr "Topic1") (Some "") = (false, pm).
Proof.
  intros pm. apply invalid_call_changes_nothing.
  right. right. right. reflexivity.
Defined.

(** C1 fails on the code: [get_topic_stats] cuts the closing slash off the
    prefix, so the keys of [Topic10] are counted for [Topic1], although no
    recorded key starts with [M/Beginner/Topic1/].  The rollup over the
    prefix with its slash, as [get_difficulty_stats] and [get_module_stats]
    build theirs, is zero there. *)
Theorem get_topic_stats_counts_longer_topic_names :
  let pm :=
    (Progress.record_attempt Progress.empty_store (Some "M") (Some "Beginner")
       (Progress.TopicStr "Topic10") (Some "q.txt") true).2 in
  Progress.attempts (Progress.stats pm)
  = {[ "M/Beginner/Topic10/q.txt" :=
         {| Progress.total := 1; Progress.correct := 1 |} ]}
  ∧ Py.startswith "M/Beginner/Topic1/" "M/Beginner/Topic10/q.txt" = false
  ∧ Progress.get_topic_stats pm (Some "M") (Some "Beginner")
      (Progress.TopicStr "Topic1") = (1, 1)
  ∧ Progress.rollup pm "M/Beginner/Topic1/" = (0, 0).
Proof. by vm_compute. Qed.

(** ** Completion and correct attempts *)

Section Completion.

Import Progress.

Implicit Types (pm : ProgressManager).

Lemma completion_justified_empty : completion_justified empty_store.
Proof.
  split; simpl.
  - intros k a H. by rewrite lookup_empty in H.
  - intros k H. by rewrite lookup_empty in H.
Qed.

Lemma completion_justified_reset pm : completion_justified (reset pm).2.
Proof.
  split; simpl.
  - intros k a H. by rewrite lookup_empty in H.
  - intros k H. by rewrite lookup_empty in H.
Qed.

(** Recording an attempt never lowers a count of correct attempts. *)
Lemma record_attempt_justified pm module difficulty topic question c :
  completion_justified pm →
  completion_justified
    (record_attempt pm module difficulty topic question c).2.
Proof.
  intros [Hpos Hdone]. unfold record_attempt.
  destruct (missing module topic question); [done|].
  set (key := _create_question_key module difficulty topic question).
  assert (0 ≤ correct (match attempts (stats pm) !! key with
                       | Some a => a
                       | None => {| total := 0; correct := 0 |}
                       end)) as Hold.
  { destruct (attempts (stats pm) !! key) as [a|] eqn:E; [by eapply Hpos|done]. }
  split; simpl.
  - intros k a. rewrite lookup_insert. case_decide as Hk.
    + intros [= <-]. simpl. destruct c; lia.
    + apply Hpos.
  - intros k Hk. rewrite lookup_insert. case_decide as Hkey.
    + subst k. destruct (Hdone _ Hk) as (a & Ha & Hge).
      eexists. split; [done|]. rewrite Ha. simpl. destruct c; lia.
    + by apply Hdone.
Qed.

(** A correct attempt leaves a record with a correct attempt at its key. *)
Lemma record_correct_attempt_lookup pm module difficulty topic question :
  completion_justified pm →
  missing module topic question = false →
  ∃ a, attempts (stats (record_attempt pm module difficulty topic question
                          true).2)
         !! _create_question_key module difficulty topic question = Some a
       ∧ 1 ≤ correct a.
Proof.
  intros [Hpos _] Hm. unfold record_attempt. rewrite Hm. simpl.
  rewrite lookup_insert_eq. eexists. split; [done|]. simpl.
  destruct (attempts (stats pm) !! _) as [a|] eqn:E; simpl; [|lia].
  specialize (Hpos _ _ E). lia.
Qed.

(** Flagging a key that has a correct attempt keeps the invariant. *)
Lemma mark_question_completed_justified pm module difficulty topic question :
  completion_justified pm →
  (missing module topic question = false →
   ∃ a, attempts (stats pm)
          !! _create_question_key module difficulty topic question = Some a
        ∧ 1 ≤ correct a) →
  completion_justified
    (mark_question_completed pm module difficulty topic question).2.
Proof.
  intros [Hpos Hdone] Hrec. unfold mark_question_completed.
  destruct (missing module topic question); [done|].
  split; simpl; [done|].
  intros k. rewrite lookup_insert. case_decide as Hk.
  - subst k. intros _. by apply Hrec.
  - apply Hdone.
Qed.

Lemma check_answer_justified app question_file user_answer correct_answer w :
  completion_justified (App.progress app) →
  completion_justified
    (App.progress
       (App.check_answer app question_file user_answer correct_answer w).2).
Proof.
  intros HI. unfold App.check_answer.
  destruct (negb (Py.nonempty (Py.strip user_answer))); [done|].
  destruct correct_answer as [correct_answer|]; [|done]. simpl.
  destruct (App.is_correct correct_answer user_answer), w; simpl;
    try by apply record_attempt_justified.
  apply mark_question_completed_justified.
  - by apply record_attempt_justified.
  - intros Hm. by apply record_correct_attempt_lookup.
Qed.

Lemma show_hint_justified app question_file hint_content :
  completion_justified (App.progress app) →
  completion_justified (App.progress (App.show_hint app question_file hint_content)).
Proof.
  intros HI. unfold App.show_hint, App.penalty.
  destruct (Py.truthy hint_content); [|done].
  repeat case_bool_decide; simpl; try done;
    repeat apply record_attempt_justified; done.
Qed.

Lemma handle_justified app e :
  completion_justified (App.progress app) →
  completion_justified (App.progress (App.handle app e)).
Proof.
  intros HI. destruct e as [m d t|q u a w|q h|c]; simpl.
  - done.
  - by apply check_answer_justified.
  - by apply show_hint_justified.
  - unfold App.reset_progress. destruct c; [|done].
    apply completion_justified_reset.
Qed.

Lemma run_justified evs : completion_justified (App.progress (App.run evs)).
Proof.
  unfold App.run.
  assert (completion_justified (App.progress App.start)) as H
    by apply completion_justified_empty.
  revert H. generalize App.start.
  induction evs as [|e evs IH]; intros app H; [done|].
  simpl. by apply IH, handle_justified.
Qed.

(** What a completed question says about its statistics, under the
    invariant. *)
Lemma completed_has_correct_attempt pm module difficulty topic question :
  completion_justified pm →
  is_question_completed pm module difficulty topic question = true →
  1 ≤ correct (get_question_stats pm module difficulty topic question).
Proof.
  intros [_ Hdone]. unfold is_question_completed, get_question_stats.
  destruct (missing module topic question); [done|].
  set (key := _create_question_key module difficulty topic question).
  destruct (completed (progress pm) !! key) as [[]|] eqn:E; try done.
  intros _. destruct (Hdone _ E) as (a & -> & Hge). done.
Qed.

End Completion.

(** C4, as stated, fails: the store sets the flag whenever it is asked to.
    One [mark_question_completed] on the empty store gives a completed
    question without any attempt. *)
Lemma completed_without_correct_attempt :
  ¬ (∀ (ops : list Progress.op) module difficulty topic question,
       let pm := Progress.run Progress.empty_store ops in
       Progress.is_question_completed pm module difficulty topic question
       = true →
       1 ≤ Progress.correct
             (Progress.get_question_stats pm module difficulty topic question)).
Proof.
  intros H.
  specialize (H [Progress.MarkQuestionCompleted (Some "Cryptography") None
                   (Progress.TopicStr "Topic1") (Some "A_Question.txt")]
                (Some "Cryptography") None (Progress.TopicStr "Topic1")
                (Some "A_Question.txt")).
  vm_compute in H. by apply H.
Qed.

(** C4 (amended): in every state the application reaches from the empty store
    through its own calls into the store ([check_answer], which records the
    attempt and marks the question completed only when the answer was correct,
    [show_hint] with its penalties, [reset_progress], and moving between
    modules, difficulties and topics), a question that
    [is_question_completed] reports completed has [correct >= 1] in its
    statistics. *)
Theorem completed_implies_correct_attempt
  (evs : list App.event) (module difficulty : option string)
  (topic : Progress.topic_arg) (question : option string) :
  Progress.is_question_completed (App.progress (App.run evs))
    module difficulty topic question = true →
  1 ≤ Progress.correct
        (Progress.get_question_stats (App.progress (App.run evs))
           module difficulty topic question).
Proof. apply completed_has_correct_attempt, run_justified. Qed.

Lemma completed_implies_correct_attempt_witness :
  let evs :=
    [App.Navigate (Some "Cryptography") (Some "Beginner")
       (Progress.TopicPair "Topic1" "Caesar");
     App.Submit (Some "A_Question.txt") "fish" (Some "cat|dog") true;
     App.Submit (Some "A_Question.txt") " Dog" (Some "cat|dog") true] in
  Progress.is_question_completed (App.progress (App.run evs))
    (Some "Cryptography") (Some "Beginner") (Progress.TopicStr "Topic1")
    (Some "A_Question.txt") = true
  ∧ 1 ≤ Progress.correct
          (Progress.get_question_stats (App.progress (App.run evs))
             (Some "Cryptography") (Some "Beginner")
             (Progress.TopicStr "Topic1") (Some "A_Question.txt")).
Proof.
  intros evs.
  assert (Progress.is_question_completed (App.progress (App.run evs))
            (Some "Cryptography") (Some "Beginner")
            (Progress.TopicStr "Topic1") (Some "A_Question.txt") = true) as H
    by (vm_compute; reflexivity).
  split; [exact H|].
  exact (completed_implies_correct_attempt evs _ _ _ _ H).
Defined.

(** ** Topic order *)

Section Sorting.

Context {A : Type} (key : A → Z).

Lemma insert_by_perm x l : Paths.insert_by key x l ≡ₚ x :: l.
Proof.
  induction l as [|y l IH]; simpl; [done|].
  destruct (key x <=? key y); [done|].
  rewrite IH. apply Permutation_swap.
Qed.

Lemma sort_by_perm l : Paths.sort_by key l ≡ₚ l.
Proof.
  induction l as [|x l IH]; simpl; [done|].
  by rewrite insert_by_perm, IH.
Qed.

Lemma insert_by_ascending x l :
  Paths.ascending key l → Paths.ascending key (Paths.insert_by key x l).
Proof.
  unfold Paths.ascending. induction 1 as [|y l Hl IH Hy]; simpl.
  - repeat constructor.
  - destruct (key x <=? key y) eqn:E.
    + apply Z.leb_le in E. constructor; [by constructor|].
      constructor; [done|].
      eapply Forall_impl; [exact Hy|]. intros z Hz. simpl in Hz. lia.
    + apply Z.leb_gt in E. constructor; [done|].
      rewrite insert_by_perm. constructor; [lia|done].
Qed.

Lemma sort_by_ascending l : Paths.ascending key (Paths.sort_by key l).
Proof.
  induction l as [|x l IH]; simpl; [constructor|].
  by apply insert_by_ascending.
Qed.

End Sorting.

(** [get_topics] returns the topic directories of the listing, in ascending
    order of [sort_key]. *)
Lemma get_topics_ascending listing :
  Paths.ascending Paths.sort_key (Paths.get_topics listing).
Proof. apply sort_by_ascending. Qed.

(** C5 fails on the code: a name that does not parse gets the key 999, which
    is not above every topic number.  [TopicX] is returned before
    [Topic1000], whose suffix parses.  On the four directories of the
    specification the order is the promised one. *)
Theorem get_topics_unparsable_before_Topic1000 :
  let dir name :=
    {| Paths.item := name; Paths.isdir := true;
       Paths.topic_name_txt := None |} in
  Paths.re_search "Topic1000" = Some 1000
  ∧ Paths.re_search "TopicX" = None
  ∧ Paths.sort_key ("TopicX", "TopicX") = 999
  ∧ Paths.get_topics [dir "Topic1000"; dir "TopicX"]
    = [("TopicX", "TopicX"); ("Topic1000", "Topic1000")]
  ∧ Paths.get_topics [dir "Topic2"; dir "Topic10"; dir "Topic1"; dir "TopicX"]
    = [("Topic1", "Topic1"); ("Topic2", "Topic2"); ("Topic10", "Topic10");
       ("TopicX", "TopicX")].
Proof. by vm_compute. Qed.

(** ** The identifier of a question file *)

(** C8 fails on the code: [replace] removes every [PS_] of the file name, not
    only a leading one.  For [GPS_Question.txt] nothing is to be stripped and
    the token before the first underscore is [GPS]; the code computes the
    base name [GQuestion.txt] and the identifier [G]. *)
Theorem identifier_strips_inner_PS :
  Py.startswith "PS_" "GPS_Question.txt" = false
  ∧ Paths.base_name "GPS_Question.txt" = "GQuestion.txt"
  ∧ Paths.identifier "GPS_Question.txt" = Some "G"
  ∧ Paths.identifier_spec "GPS_Question.txt" = Some "GPS"
  ∧ Paths.identifier "PS_A_Question.txt" = Some "A"
  ∧ Paths.identifier_spec "PS_A_Question.txt" = Some "A".
Proof. by vm_compute. Qed.

(** ** Answer matching *)

Section Split.

Variable c : ascii.

Lemma split_not_nil s : Py.split c s ≠ [].
Proof.
  destruct s as [|a s]; simpl; [done|].
  destruct (Ascii.eqb a c); [done|]. by destruct (Py.split c s).
Qed.

(** Joining the pieces with the separator gives the text back. *)
Lemma split_join s : Py.join (String c "") (Py.split c s) = s.
Proof.
  induction s as [|a s IH]; simpl; [done|].
  pose proof (split_not_nil s) as Hne.
  destruct (Ascii.eqb_spec a c) as [->|Hac].
  - destruct (Py.split c s) as [|h t]; [done|].
    change (Py.join (String c "") ("" :: h :: t))
      with ("" +:+ String c "" +:+ Py.join (String c "") (h :: t)).
    by rewrite IH.
  - destruct (Py.split c s) as [|h t]; [done|].
    destruct t as [|h' t]; simpl in *; [by rewrite IH|].
    by rewrite app_cons, IH.
Qed.

(** No piece contains the separator. *)
Lemma split_no_sep s : Forall (λ x, Py.contains c x = false) (Py.split c s).
Proof.
  induction s as [|a s IH]; simpl; [by repeat constructor|].
  destruct (Ascii.eqb a c) eqn:E; [by constructor|].
  destruct (Py.split c s) as [|h t]; [repeat constructor; simpl; by rewrite E|].
  inversion_clear IH as [|?? Hh Ht]. constructor; [|done].
  simpl. by rewrite E.
Qed.

End Split.

Section Matching.

Import App.

Lemma is_correct_iff correct_answer user_answer :
  is_correct correct_answer user_answer = true ↔
  ∃ alternative,
    alternative ∈ Py.split "|" correct_answer
    ∧ Py.strip (Py.lower user_answer) = Py.strip (Py.lower alternative).
Proof.
  unfold is_correct, correct_options.
  rewrite bool_decide_eq_true, list_elem_of_fmap.
  split; intros (alternative & H1 & H2); by exists alternative.
Qed.

Lemma check_answer_verdict app question_file user_answer correct_answer w :
  Py.nonempty (Py.strip user_answer) = true →
  (check_answer app question_file user_answer (Some correct_answer) w).1
  = Judged (is_correct correct_answer user_answer).
Proof. intros H. unfold check_answer. by rewrite H. Qed.

Lemma check_answer_blank app question_file user_answer correct_answer w :
  Py.nonempty (Py.strip user_answer) = false →
  check_answer app question_file user_answer correct_answer w
  = (EnterAnswer, app).
Proof. intros H. unfold check_answer. by rewrite H. Qed.

End Matching.

(** C6, as stated, fails: [check_answer] turns a submission that is blank
    after trimming away before it compares anything.  With the stored answer
    [cat|] the trimmed submission is the empty alternative, and it is not
    judged correct. *)
Lemma blank_submission_not_judged :
  ¬ (∀ app question_file (user_answer correct_answer : string) w,
       (App.check_answer app question_file user_answer (Some correct_answer)
          w).1 = App.Judged true
       ↔ ∃ alternative,
           alternative ∈ Py.split "|" correct_answer
           ∧ Py.strip (Py.lower user_answer)
             = Py.strip (Py.lower alternative)).
Proof.
  intros H.
  destruct (H App.start (Some "A_Question.txt") " " "cat|" true) as [_ H'].
  assert ((App.check_answer App.start (Some "A_Question.txt") " "
             (Some "cat|") true).1 = App.Judged true) as E.
  { apply H'. exists "". split; [|reflexivity].
    vm_compute. apply list_elem_of_In. simpl. auto. }
  vm_compute in E. discriminate E.
Qed.

(** C6 (amended): a submission that is not blank after trimming is judged
    correct if and only if, lowercased and trimmed, it equals one of the
    alternatives of the canonical answer, split on [|], each lowercased and
    trimmed; a submission that is blank after trimming is not judged and
    leaves the application as it was.  With the stored answer [cat|dog],
    [Cat], [ dog ] and [DOG] are accepted and [catdog] is rejected. *)
Theorem check_answer_matches_alternatives :
  (∀ app question_file (user_answer correct_answer : string) w,
     Py.nonempty (Py.strip user_answer) = true →
     ((App.check_answer app question_file user_answer (Some correct_answer)
         w).1 = App.Judged true
      ↔ ∃ alternative,
          alternative ∈ Py.split "|" correct_answer
          ∧ Py.strip (Py.lower user_answer)
            = Py.strip (Py.lower alternative)))
  ∧ (∀ app question_file (user_answer : string) correct_answer w,
       Py.nonempty (Py.strip user_answer) = false →
       App.check_answer app question_file user_answer correct_answer w
       = (App.EnterAnswer, app))
  ∧ (∀ app question_file w,
       (App.check_answer app question_file "Cat" (Some "cat|dog") w).1
       = App.Judged true
       ∧ (App.check_answer app question_file " dog " (Some "cat|dog") w).1
         = App.Judged true
       ∧ (App.check_answer app question_file "DOG" (Some "cat|dog") w).1
         = App.Judged true
       ∧ (App.check_answer app question_file "catdog" (Some "cat|dog") w).1
         = App.Judged false).
Proof.
  split; [|split].
  - intros app q u a w Hu. rewrite (check_answer_verdict _ _ _ _ _ Hu).
    rewrite <- is_correct_iff. split; [by intros [= ->]|by intros ->].
  - intros. by apply check_answer_blank.
  - intros app q w. by rewrite !check_answer_verdict.
Qed.

Lemma check_answer_matches_alternatives_witness :
  (App.check_answer App.start (Some "A_Question.txt") " Dog"
     (Some "cat|dog") true).1 = App.Judged true.
Proof.
  apply (proj1 check_answer_matches_alternatives); [reflexivity|].
  exists "dog". split; [|reflexivity].
  vm_compute. apply list_elem_of_In. simpl. auto.
Defined.

(** ** Question files *)

Section Extract.

Implicit Types (a b r text : string) (c : ascii).

Lemma find_from_skip c a r k pos :
  Py.find_from c (a +:+ r) (String.length a + k) pos
  = Py.find_from c r k (pos + Z.of_nat (String.length a)).
Proof.
  revert pos. induction a as [|x a IH]; intros pos.
  - rewrite app_nil_l. simpl. f_equal. lia.
  - rewrite app_cons. cbn [Py.find_from String.length Nat.add].
    rewrite IH. f_equal. lia.
Qed.

(** The first occurrence is found where it is. *)
Lemma find_from_first c a r pos :
  Py.contains c a = false →
  Py.find_from c (a +:+ String c r) 0 pos = pos + Z.of_nat (String.length a).
Proof.
  revert pos. induction a as [|x a IH]; intros pos Ha.
  - rewrite app_nil_l. simpl. rewrite Ascii.eqb_refl. lia.
  - rewrite app_cons. simpl in *.
    destruct (Ascii.eqb x c); [done|]. rewrite IH by done. lia.
Qed.

Lemma find_from_absent c text pos :
  Py.contains c text = false → Py.find_from c text 0 pos = -1.
Proof.
  revert pos. induction text as [|x text IH]; intros pos H; [done|].
  simpl in *. destruct (Ascii.eqb x c); [done|]. by apply IH.
Qed.

Lemma substring_skip a r n m :
  substring (String.length a + n) m (a +:+ r) = substring n m r.
Proof. induction a as [|x a IH]; [done|]. by rewrite app_cons. Qed.

Lemma substring_prefix b r : substring 0 (String.length b) (b +:+ r) = b.
Proof.
  induction b as [|x b IH]; [by destruct r|].
  rewrite app_cons. simpl. by rewrite IH.
Qed.

(** The text between the first opening character and the first closing
    character after it, trimmed. *)
Lemma extract_content_region o cl a b r :
  Py.contains o a = false →
  Py.contains cl b = false →
  Paths._extract_content (a +:+ String o (b +:+ String cl r)) o cl
  = Py.strip b.
Proof.
  intros Ha Hb. unfold Paths._extract_content.
  set (text := a +:+ String o (b +:+ String cl r)).
  assert (Py.nonempty text = true) as -> by (subst text; by destruct a).
  assert (Py.find o text 0 = Z.of_nat (String.length a)) as Hstart.
  { unfold Py.find. subst text. simpl. by rewrite find_from_first. }
  rewrite Hstart.
  assert ((Z.of_nat (String.length a) =? -1) = false) as -> by lia.
  assert (Py.find cl text (Z.of_nat (String.length a) + 1)
          = Z.of_nat (String.length a) + 1 + Z.of_nat (String.length b))
    as Hend.
  { unfold Py.find. subst text.
    replace (Z.to_nat (Z.of_nat (String.length a) + 1))
      with (String.length a + 1)%nat by lia.
    rewrite find_from_skip. simpl. rewrite find_from_first by done. lia. }
  cbn [negb]. rewrite Hend.
  assert ((Z.of_nat (String.length a) + 1 + Z.of_nat (String.length b) =? -1)
          = false) as -> by lia.
  assert ((Z.of_nat (String.length a)
           <? Z.of_nat (String.length a) + 1 + Z.of_nat (String.length b))
          = true) as -> by lia.
  cbn [negb andb]. f_equal. unfold Py.slice. subst text.
  replace (Z.to_nat (Z.of_nat (String.length a) + 1))
    with (String.length a + 1)%nat by lia.
  replace (Z.to_nat _) with (String.length b) by lia.
  rewrite substring_skip. simpl. apply substring_prefix.
Qed.

(** Without the opening character nothing is extracted. *)
Lemma extract_content_absent o cl text :
  Py.contains o text = false → Paths._extract_content text o cl = "".
Proof.
  intros H. unfold Paths._extract_content.
  destruct (Py.nonempty text); [|done].
  assert (Py.find o text 0 = -1) as ->
    by (unfold Py.find; by apply find_from_absent).
  reflexivity.
Qed.

End Extract.

(** C7, as stated, fails twice.  A file without delimiters is returned as it
    was read, white space included, not trimmed.  And the blank line is put
    after a description only: for [[]{What is 2+2?}] the description is
    empty and the display text is the question alone, without the blank
    line in front. *)
Lemma load_question_content_neither_trims_nor_always_separates :
  ¬ (∀ question_content : string,
       Py.contains "[" question_content = false →
       Py.contains "]" question_content = false →
       Py.contains "{" question_content = false →
       Py.contains "}" question_content = false →
       Paths.load_question_content question_content
       = (Py.strip question_content, Py.strip question_content))
  ∧ ¬ (∀ a b r a' b' r' question_content : string,
         question_content = a +:+ "[" +:+ b +:+ "]" +:+ r →
         question_content = a' +:+ "{" +:+ b' +:+ "}" +:+ r' →
         Py.contains "[" a = false → Py.contains "]" b = false →
         Py.contains "{" a' = false → Py.contains "}" b' = false →
         Paths.load_question_content question_content
         = (Py.strip b +:+ Py.blank_line +:+ Py.strip b', Py.strip b')).
Proof.
  split; intros H.
  - specialize (H " What is 2+2? ").
    vm_compute in H. by specialize (H eq_refl eq_refl eq_refl eq_refl).
  - specialize (H "" "" "{What is 2+2?}" "[]" "What is 2+2?" ""
                  "[]{What is 2+2?}"
                  eq_refl eq_refl eq_refl eq_refl eq_refl eq_refl).
    vm_compute in H. discriminate H.
Qed.

(** C7 (amended): when the content holds a [[..]] region and a [{..}] region,
    the description and the literal question are the trimmed interiors of
    these regions (a region runs from the first opening bracket to the first
    closing bracket after it) and the second output is the literal question;
    when the description is not empty, the display text is the description,
    a blank line and the literal question; when the description is empty
    and the literal question is not, the display text is the literal
    question alone; when both are empty, both outputs are the content as
    read.  When the content holds neither opening bracket, both outputs are
    the content as read, not trimmed.  The file
    [[Scenario here]{What is 2+2?}] gives the description [Scenario here]
    and the literal question [What is 2+2?]. *)
Theorem load_question_content_regions :
  (∀ a b r a' b' r' question_content : string,
     question_content = a +:+ "[" +:+ b +:+ "]" +:+ r →
     question_content = a' +:+ "{" +:+ b' +:+ "}" +:+ r' →
     Py.contains "[" a = false → Py.contains "]" b = false →
     Py.contains "{" a' = false → Py.contains "}" b' = false →
     Paths._extract_content question_content "[" "]" = Py.strip b
     ∧ Paths._extract_content question_content "{" "}" = Py.strip b'
     ∧ (Py.nonempty (Py.strip b) = true →
        Paths.load_question_content question_content
        = (Py.strip b +:+ Py.blank_line +:+ Py.strip b', Py.strip b'))
     ∧ (Py.nonempty (Py.strip b) = false →
        Py.nonempty (Py.strip b') = true →
        Paths.load_question_content question_content
        = (Py.strip b', Py.strip b'))
     ∧ (Py.nonempty (Py.strip b) = false →
        Py.nonempty (Py.strip b') = false →
        Paths.load_question_content question_content
        = (question_content, question_content)))
  ∧ (∀ question_content : string,
       Py.contains "[" question_content = false →
       Py.contains "{" question_content = false →
       Paths.load_question_content question_content
       = (question_content, question_content))
  ∧ Paths._extract_content "[Scenario here]{What is 2+2?}" "[" "]"
    = "Scenario here"
  ∧ Paths.load_question_content "[Scenario here]{What is 2+2?}"
    = ("Scenario here" +:+ Py.blank_line +:+ "What is 2+2?", "What is 2+2?").
Proof.
  split; [|split; [|split; reflexivity]].
  - intros a b r a' b' r' text E1 E2 Ha Hb Ha' Hb'.
    assert (Paths._extract_content text "[" "]" = Py.strip b) as Hdesc.
    { rewrite E1. by apply extract_content_region. }
    assert (Paths._extract_content text "{" "}" = Py.strip b') as Hquest.
    { rewrite E2. by apply extract_content_region. }
    split; [done|]. split; [done|].
    unfold Paths.load_question_content. rewrite Hdesc, Hquest.
    split; [|split].
    + intros Hd. rewrite Hd. simpl. rewrite app_nil_l.
      destruct (Py.nonempty (Py.strip b')) eqn:Hq.
      * by rewrite app_assoc.
      * destruct (Py.strip b'); [|done]. by rewrite app_nil_r.
    + intros Hd Hq. rewrite Hd, Hq. simpl. by rewrite app_nil_l.
    + intros Hd Hq. by rewrite Hd, Hq.
  - intros text H1 H2. unfold Paths.load_question_content.
    by rewrite !extract_content_absent.
Qed.

Lemma load_question_content_regions_witness :
  Paths.load_question_content "Intro [ Scenario here ] then { What is 2+2? }"
  = ("Scenario here" +:+ Py.blank_line +:+ "What is 2+2?", "What is 2+2?")
  ∧ Paths.load_question_content "[Scenario here]{ }"
    = ("Scenario here" +:+ Py.blank_line, "")
  ∧ Paths.load_question_content "[]{What is 2+2?}"
    = ("What is 2+2?", "What is 2+2?")
  ∧ Paths.load_question_content "[ ]{ }" = ("[ ]{ }", "[ ]{ }")
  ∧ Paths.load_question_content " What is 2+2? "
    = (" What is 2+2? ", " What is 2+2? ").
Proof.
  split; [|split; [|split; [|split]]].
  - apply (proj1 load_question_content_regions
             "Intro " " Scenario here " " then { What is 2+2? }"
             "Intro [ Scenario here ] then " " What is 2+2? " ""
             "Intro [ Scenario here ] then { What is 2+2? }");
      reflexivity.
  - apply (proj1 load_question_content_regions
             "" "Scenario here" "{ }" "[Scenario here]" " " ""
             "[Scenario here]{ }"); reflexivity.
  - apply (proj1 load_question_content_regions
             "" "" "{What is 2+2?}" "[]" "What is 2+2?" ""
             "[]{What is 2+2?}"); reflexivity.
  - apply (proj1 load_question_content_regions
             "" " " "{ }" "[ ]" " " "" "[ ]{ }"); reflexivity.
  - apply (proj1 (proj2 load_question_content_regions)); reflexivity.
Defined.

(** * Further properties of the store *)

Section StoreMore.

Import Progress StoreSpec.

Implicit Types (pm : ProgressManager) (m : gmap string attempt).

Lemma rollup_unfold pm prefix :
  rollup pm prefix = rollup_of prefix (attempts (stats pm)).
Proof. reflexivity. Qed.

Lemma rollup_of_empty prefix : rollup_of prefix ∅ = (0, 0).
Proof. unfold rollup_of. by rewrite map_fold_empty. Qed.

Lemma rollup_of_insert_fresh prefix m k a :
  m !! k = None →
  rollup_of prefix (<[k:=a]> m) =
  if Py.startswith prefix k then add_attempt a (rollup_of prefix m)
  else rollup_of prefix m.
Proof.
  intros Hk. unfold rollup_of.
  rewrite map_fold_insert_L; [done| |done].
  intros j1 j2 z1 z2 y _ _ _.
  destruct (Py.startswith prefix j1), (Py.startswith prefix j2); simpl;
    try done; f_equal; lia.
Qed.

Lemma rollup_of_delete prefix m k a :
  m !! k = Some a →
  rollup_of prefix m =
  if Py.startswith prefix k then add_attempt a (rollup_of prefix (delete k m))
  else rollup_of prefix (delete k m).
Proof.
  intros Hk.
  rewrite <- (insert_delete_id m k a) at 1 by done.
  apply rollup_of_insert_fresh, lookup_delete_eq.
Qed.

(** Replacing the record of [k] moves a rollup only if [k] has the prefix. *)
Lemma rollup_of_insert prefix m k a :
  let old := default {| total := 0; correct := 0 |} (m !! k) in
  rollup_of prefix (<[k:=a]> m) =
  if Py.startswith prefix k
  then ((rollup_of prefix m).1 - total old + total a,
        (rollup_of prefix m).2 - correct old + correct a)
  else rollup_of prefix m.
Proof.
  destruct (m !! k) as [old|] eqn:Hk; simpl.
  - rewrite <- (insert_delete_eq m), rollup_of_insert_fresh
      by apply lookup_delete_eq.
    rewrite (rollup_of_delete prefix m k old) by done.
    destruct (Py.startswith prefix k); [|done].
    unfold add_attempt. simpl. f_equal; lia.
  - rewrite rollup_of_insert_fresh by done.
    destruct (Py.startswith prefix k); [|done].
    unfold add_attempt. simpl. f_equal; lia.
Qed.

(** A valid [record_attempt] adds one attempt to the rollups whose prefix
    its key has, and leaves the others. *)
Lemma rollup_record_attempt pm module difficulty topic question c prefix :
  missing module topic question = false →
  rollup (record_attempt pm module difficulty topic question c).2 prefix =
  if Py.startswith prefix
       (_create_question_key module difficulty topic question)
  then gain c (rollup pm prefix)
  else rollup pm prefix.
Proof.
  intros Hm. rewrite !rollup_unfold. unfold record_attempt. rewrite Hm.
  simpl. rewrite rollup_of_insert.
  set (key := _create_question_key _ _ _ _).
  destruct (Py.startswith prefix key); [|done].
  unfold gain.
  destruct (attempts (stats pm) !! key) as [old|]; destruct c; simpl;
    f_equal; lia.
Qed.

End StoreMore.

Section StoreExtras.

Import Progress StoreSpec.

Implicit Types (pm : ProgressManager) (m : gmap string attempt).

Lemma init_snoc s c : Py.init (s +:+ String c "") = s.
Proof.
  unfold Py.init. rewrite app_length. simpl.
  replace (String.length s + 1 - 1)%nat with (String.length s) by lia.
  apply substring_prefix.
Qed.

(** A key starts with the prefixes that the three rollups build for its
    module, its difficulty and its topic. *)
Lemma key_startswith_module module difficulty topic question :
  Py.startswith (Py.fmt module +:+ "/")
    (_create_question_key module difficulty topic question) = true.
Proof.
  rewrite key_form. apply startswith_iff. eexists.
  by rewrite app_assoc.
Qed.

Lemma key_startswith_difficulty module difficulty topic question :
  difficulty ≠ Some "" →
  Py.startswith (Py.fmt module +:+ "/" +:+ Py.fmt difficulty +:+ "/")
    (_create_question_key module difficulty topic question) = true.
Proof.
  intros Hd. rewrite key_form. apply startswith_iff. eexists.
  assert (difficulty_text difficulty = Py.fmt difficulty) as ->.
  { by destruct difficulty as [[|??]|]. }
  by rewrite !app_assoc.
Qed.

Lemma key_startswith_topic module difficulty topic question :
  Py.startswith
    (Py.init (_create_question_key module difficulty topic (Some "")))
    (_create_question_key module difficulty topic question) = true.
Proof.
  rewrite !key_form. cbn [Py.fmt]. rewrite app_nil_r.
  rewrite <- !app_assoc, init_snoc.
  apply startswith_iff. eexists. by rewrite !app_assoc.
Qed.

Lemma rollup_of_nil m : rollup_of "" m = sum_attempts m.
Proof.
  induction m as [|k a m Hk IH] using map_ind.
  - by rewrite rollup_of_empty, sum_attempts_empty.
  - rewrite rollup_of_insert_fresh, sum_attempts_insert_fresh, IH by done.
    by destruct k.
Qed.

Lemma rollup_of_filter prefix m :
  rollup_of prefix m
  = sum_attempts (filter (λ kv, Py.startswith prefix kv.1 = true) m).
Proof.
  induction m as [|k a m Hk IH] using map_ind.
  - by rewrite map_filter_empty, rollup_of_empty, sum_attempts_empty.
  - rewrite rollup_of_insert_fresh by done.
    destruct (Py.startswith prefix k) eqn:E.
    + rewrite map_filter_insert_True by done.
      rewrite sum_attempts_insert_fresh, IH; [done|].
      by rewrite map_lookup_filter_None; left.
    + rewrite map_filter_insert_False by (simpl; congruence).
      by rewrite delete_id.
Qed.

(** With records that count nothing negative, a rollup over fewer keys is
    not larger. *)
Lemma rollup_of_mono p1 p2 m :
  (∀ k, Py.startswith p2 k = true → Py.startswith p1 k = true) →
  (∀ k a, m !! k = Some a → 0 ≤ correct a ∧ 0 ≤ total a) →
  pair_le (rollup_of p2 m) (rollup_of p1 m).
Proof.
  intros Hp. unfold pair_le.
  induction m as [|k a m Hk IH] using map_ind; intros Hpos.
  - by rewrite !rollup_of_empty.
  - rewrite !rollup_of_insert_fresh by done.
    destruct (Hpos k a) as [Hc Ht]; [by rewrite lookup_insert_eq|].
    destruct IH as [IH1 IH2].
    { intros j b Hj. apply (Hpos j b). rewrite lookup_insert_ne; [done|].
      intros ->. congruence. }
    specialize (Hp k).
    destruct (Py.startswith p2 k), (Py.startswith p1 k); simpl;
      try (specialize (Hp eq_refl); discriminate); lia.
Qed.

Lemma startswith_app_l p r k :
  Py.startswith (p +:+ r) k = true → Py.startswith p k = true.
Proof.
  rewrite !startswith_iff. intros [x ->]. eexists. by rewrite app_assoc.
Qed.

Lemma records_wellformed_step pm o :
  records_wellformed pm → records_wellformed (step pm o).2.
Proof.
  intros [Hrec Htot].
  destruct o as [mo d t q c|mo d t q|mo d t q|]; simpl.
  - unfold record_attempt. destruct (missing mo t q); [done|].
    set (key := _create_question_key mo d t q). split; simpl.
    + intros k a. rewrite lookup_insert. case_decide as Hk; [|apply Hrec].
      intros [= <-]. simpl.
      destruct (attempts (stats pm) !! key) as [old|] eqn:E.
      * destruct (Hrec _ _ E). destruct c; lia.
      * simpl. destruct c; lia.
    + destruct c; lia.
  - unfold mark_question_completed. by destruct (missing mo t q).
  - unfold mark_hint_used. by destruct (missing mo t q).
  - split; simpl; [|lia]. intros k a H. by rewrite lookup_empty in H.
Qed.

Lemma records_wellformed_run ops :
  records_wellformed (run empty_store ops).
Proof.
  apply (run_invariant records_wellformed).
  - apply records_wellformed_step.
  - split; simpl; [|lia]. intros k a H. by rewrite lookup_empty in H.
Qed.

End StoreExtras.

(** X1: marking a question completed a second time changes nothing: the
    call succeeds again and returns the same store, the question stays
    completed, and neither call touches the attempt statistics. *)
Theorem mark_question_completed_idempotent
  (pm : Progress.ProgressManager) (module difficulty : option string)
  (topic : Progress.topic_arg) (question : option string) :
  Progress.missing module topic question = false →
  let pm1 :=
    (Progress.mark_question_completed pm module difficulty topic question).2 in
  Progress.mark_question_completed pm1 module difficulty topic question
  = (true, pm1)
  ∧ Progress.is_question_completed pm1 module difficulty topic question = true
  ∧ Progress.stats pm1 = Progress.stats pm.
Proof.
  intros Hm. unfold Progress.mark_question_completed,
    Progress.is_question_completed. rewrite Hm. simpl.
  split; [|split; [|done]].
  - by rewrite insert_insert_eq.
  - by rewrite lookup_insert_eq.
Qed.

Lemma mark_question_completed_idempotent_witness :
  let pm1 :=
    (Progress.mark_question_completed Progress.empty_store
       (Some "Cryptography") None (Progress.TopicStr "Topic1")
       (Some "A_Question.txt")).2 in
  Progress.mark_question_completed pm1 (Some "Cryptography") None
    (Progress.TopicStr "Topic1") (Some "A_Question.txt") = (true, pm1)
  ∧ Progress.is_question_completed pm1 (Some "Cryptography") None
      (Progress.TopicStr "Topic1") (Some "A_Question.txt") = true
  ∧ Progress.stats pm1 = Progress.stats Progress.empty_store.
Proof.
  apply (mark_question_completed_idempotent Progress.empty_store). reflexivity.
Defined.

(** X2: a valid [record_attempt] succeeds, adds one to the question's
    [total] (and to its [correct] when the attempt was correct, starting
    from zero for a question never seen), adds the same to the global
    totals, leaves the statistics of every other key and the completion and
    hint flags as they were. *)
Theorem record_attempt_counts_one_attempt
  (pm : Progress.ProgressManager) (module difficulty : option string)
  (topic : Progress.topic_arg) (question : option string) (is_correct : bool) :
  Progress.missing module topic question = false →
  let old := Progress.get_question_stats pm module difficulty topic question in
  let pm1 :=
    (Progress.record_attempt pm module difficulty topic question
       is_correct).2 in
  (Progress.record_attempt pm module difficulty topic question
     is_correct).1 = true
  ∧ Progress.get_question_stats pm1 module difficulty topic question
    = {| Progress.total := Progress.total old + 1;
         Progress.correct :=
           if is_correct then Progress.correct old + 1
           else Progress.correct old |}
  ∧ Progress.get_overall_stats pm1
    = StoreSpec.gain is_correct (Progress.get_overall_stats pm)
  ∧ (∀ module' difficulty' topic' question',
       Progress._create_question_key module' difficulty' topic' question'
       ≠ Progress._create_question_key module difficulty topic question →
       Progress.get_question_stats pm1 module' difficulty' topic' question'
       = Progress.get_question_stats pm module' difficulty' topic' question')
  ∧ Progress.progress pm1 = Progress.progress pm.
Proof.
  intros Hm. unfold Progress.record_attempt, Progress.get_question_stats,
    Progress.get_overall_stats, StoreSpec.gain.
  rewrite Hm. simpl.
  split; [done|]. split; [|split; [|split; [|done]]].
  - rewrite lookup_insert_eq.
    by destruct (Progress.attempts (Progress.stats pm) !! _) as [[]|].
  - by destruct is_correct.
  - intros m' d' t' q' Hne. by rewrite lookup_insert_ne.
Qed.

Lemma record_attempt_counts_one_attempt_witness :
  (Progress.record_attempt Progress.empty_store (Some "Cryptography")
     (Some "Beginner") (Progress.TopicStr "Topic1") (Some "A_Question.txt")
     true).1 = true.
Proof.
  apply (record_attempt_counts_one_attempt Progress.empty_store
           (Some "Cryptography") (Some "Beginner")
           (Progress.TopicStr "Topic1") (Some "A_Question.txt") true).
  reflexivity.
Defined.

(** X3: a valid [record_attempt] adds exactly one attempt to the rollup of
    its module, to the rollup of its difficulty (when the difficulty is not
    the empty string) and to the rollup of its topic; the rollup of a module
    whose prefix the key does not have is unchanged. *)
Theorem record_attempt_raises_rollups
  (pm : Progress.ProgressManager) (module difficulty : option string)
  (topic : Progress.topic_arg) (question : option string) (is_correct : bool) :
  Progress.missing module topic question = false →
  let pm1 :=
    (Progress.record_attempt pm module difficulty topic question
       is_correct).2 in
  Progress.get_module_stats pm1 module
  = StoreSpec.gain is_correct (Progress.get_module_stats pm module)
  ∧ (difficulty ≠ Some "" →
     Progress.get_difficulty_stats pm1 module difficulty
     = StoreSpec.gain is_correct
         (Progress.get_difficulty_stats pm module difficulty))
  ∧ Progress.get_topic_stats pm1 module difficulty topic
    = StoreSpec.gain is_correct
        (Progress.get_topic_stats pm module difficulty topic)
  ∧ (∀ module',
       Py.startswith (Py.fmt module' +:+ "/")
         (Progress._create_question_key module difficulty topic question)
       = false →
       Progress.get_module_stats pm1 module'
       = Progress.get_module_stats pm module').
Proof.
  intros Hm. unfold Progress.get_module_stats, Progress.get_difficulty_stats,
    Progress.get_topic_stats. simpl.
  split; [|split; [|split]].
  - by rewrite rollup_record_attempt, key_startswith_module.
  - intros Hd. by rewrite rollup_record_attempt, key_startswith_difficulty.
  - by rewrite rollup_record_attempt, key_startswith_topic.
  - intros m' Hm'. by rewrite rollup_record_attempt, Hm'.
Qed.

Lemma record_attempt_raises_rollups_witness :
  Progress.get_module_stats
    (Progress.record_attempt Progress.empty_store (Some "Cryptography")
       (Some "Beginner") (Progress.TopicStr "Topic1") (Some "A_Question.txt")
       true).2 (Some "Cryptography")
  = StoreSpec.gain true
      (Progress.get_module_stats Progress.empty_store (Some "Cryptography")).
Proof.
  apply (record_attempt_raises_rollups Progress.empty_store
           (Some "Cryptography") (Some "Beginner")
           (Progress.TopicStr "Topic1") (Some "A_Question.txt") true).
  reflexivity.
Defined.

(** X4: the module rollup and the difficulty rollup are the sums of the
    records of exactly the keys that start with [<module>/] and with
    [<module>/<difficulty>/]. *)
Theorem module_rollup_is_sum_over_prefixed_keys
  (pm : Progress.ProgressManager) (module difficulty : option string) :
  Progress.get_module_stats pm module
  = Progress.sum_attempts
      (filter (λ kv, Py.startswith (Py.fmt module +:+ "/") kv.1 = true)
         (Progress.attempts (Progress.stats pm)))
  ∧ Progress.get_difficulty_stats pm module difficulty
    = Progress.sum_attempts
        (filter
           (λ kv, Py.startswith
                    (Py.fmt module +:+ "/" +:+ Py.fmt difficulty +:+ "/")
                    kv.1 = true)
           (Progress.attempts (Progress.stats pm))).
Proof.
  unfold Progress.get_module_stats, Progress.get_difficulty_stats.
  rewrite !rollup_unfold. split; apply rollup_of_filter.
Qed.

(** X5: in every state reached from the empty store the rollups are nested:
    the topic rollup is at most the difficulty rollup (for a difficulty that
    is not the empty string), which is at most the module rollup, which is
    at most the global totals, in attempts and in correct attempts. *)
Theorem rollups_are_nested
  (ops : list Progress.op) (module difficulty : option string)
  (topic : Progress.topic_arg) :
  let pm := Progress.run Progress.empty_store ops in
  (difficulty ≠ Some "" →
   StoreSpec.pair_le (Progress.get_topic_stats pm module difficulty topic)
     (Progress.get_difficulty_stats pm module difficulty))
  ∧ StoreSpec.pair_le (Progress.get_difficulty_stats pm module difficulty)
      (Progress.get_module_stats pm module)
  ∧ StoreSpec.pair_le (Progress.get_module_stats pm module)
      (Progress.get_overall_stats pm).
Proof.
  intros pm.
  assert (∀ k a, Progress.attempts (Progress.stats pm) !! k = Some a →
                 0 ≤ Progress.correct a ∧ 0 ≤ Progress.total a) as Hpos.
  { intros k a H. destruct (records_wellformed_run ops) as [Hrec _].
    destruct (Hrec k a H). lia. }
  unfold Progress.get_topic_stats, Progress.get_difficulty_stats,
    Progress.get_module_stats.
  rewrite !rollup_unfold. split; [|split].
  - intros Hd. apply rollup_of_mono; [|done]. intros k.
    rewrite key_form. cbn [Py.fmt]. rewrite app_nil_r.
    rewrite <- !app_assoc, init_snoc.
    assert (Progress.difficulty_text difficulty = Py.fmt difficulty) as ->.
    { by destruct difficulty as [[|??]|]. }
    apply startswith_app_l.
  - apply rollup_of_mono; [|done]. intros k.
    rewrite <- (app_assoc (Py.fmt module) "/"). apply startswith_app_l.
  - assert (Progress.get_overall_stats pm
            = Progress.sum_attempts (Progress.attempts (Progress.stats pm)))
      as ->.
    { apply (run_invariant Progress.totals_consistent);
        [apply step_consistent|].
      unfold Progress.totals_consistent. simpl.
      by rewrite sum_attempts_empty. }
    rewrite <- rollup_of_nil. apply rollup_of_mono; [|done].
    intros k _. by destruct k.
Qed.

Lemma rollups_are_nested_witness :
  let pm :=
    Progress.run Progress.empty_store
      [Progress.RecordAttempt (Some "Cryptography") (Some "Beginner")
         (Progress.TopicStr "Topic1") (Some "A_Question.txt") true] in
  StoreSpec.pair_le
    (Progress.get_topic_stats pm (Some "Cryptography") (Some "Beginner")
       (Progress.TopicStr "Topic1"))
    (Progress.get_difficulty_stats pm (Some "Cryptography") (Some "Beginner")).
Proof.
  apply (proj1 (rollups_are_nested
                  [Progress.RecordAttempt (Some "Cryptography")
                     (Some "Beginner") (Progress.TopicStr "Topic1")
                     (Some "A_Question.txt") true]
                  (Some "Cryptography") (Some "Beginner")
                  (Progress.TopicStr "Topic1"))).
  discriminate.
Defined.

(** X6: in every state reached from the empty store, every question has
    [0 <= correct <= total], and the global totals have
    [0 <= correct_attempts <= total_attempts]: no accuracy leaves the range
    from 0 to 1. *)
Theorem attempt_counts_are_wellformed
  (ops : list Progress.op) (module difficulty : option string)
  (topic : Progress.topic_arg) (question : option string) :
  let pm := Progress.run Progress.empty_store ops in
  let st := Progress.get_question_stats pm module difficulty topic question in
  0 ≤ Progress.correct st ≤ Progress.total st
  ∧ 0 ≤ (Progress.get_overall_stats pm).2 ≤ (Progress.get_overall_stats pm).1.
Proof.
  intros pm st. destruct (records_wellformed_run ops) as [Hrec Htot].
  split; [|exact Htot].
  subst st. unfold Progress.get_question_stats.
  destruct (Progress.attempts (Progress.stats pm) !! _) as [a|] eqn:E;
    simpl; [|lia].
  destruct (Hrec _ _ E). lia.
Qed.

Section Flags.

Import Progress StoreSpec.

Lemma default_lookup_insert_true (flags : gmap string bool) k k' :
  default false (flags !! k') = true →
  default false (<[k := true]> flags !! k') = true.
Proof.
  intros H. rewrite lookup_insert. by case_decide.
Qed.

(** No operation other than [reset] takes a flag away. *)
Lemma step_keeps_flags pm o module difficulty topic question :
  keeps_progress o = true →
  (is_question_completed pm module difficulty topic question = true →
   is_question_completed (step pm o).2 module difficulty topic question
   = true)
  ∧ (is_hint_used pm module difficulty topic question = true →
     is_hint_used (step pm o).2 module difficulty topic question = true).
Proof.
  intros Ho. unfold is_question_completed, is_hint_used.
  destruct (missing module topic question); [done|].
  destruct o as [mo d t q c|mo d t q|mo d t q|]; [| | |done]; simpl.
  - unfold record_attempt. by destruct (missing mo t q).
  - unfold mark_question_completed. destruct (missing mo t q); [done|].
    simpl. split; [apply default_lookup_insert_true|done].
  - unfold mark_hint_used. destruct (missing mo t q); [done|].
    simpl. split; [done|apply default_lookup_insert_true].
Qed.

End Flags.

(** X7: hint usage is independent of completion and attempts: a valid
    [mark_hint_used] succeeds and makes [is_hint_used] true for its
    question, marking again changes nothing, the statistics and every
    answer of [is_question_completed] stay as they were; and
    [mark_question_completed] leaves every answer of [is_hint_used] as it
    was. *)
Theorem mark_hint_used_is_independent
  (pm : Progress.ProgressManager) (module difficulty : option string)
  (topic : Progress.topic_arg) (question : option string) :
  Progress.missing module topic question = false →
  let pm1 :=
    (Progress.mark_hint_used pm module difficulty topic question).2 in
  (Progress.mark_hint_used pm module difficulty topic question).1 = true
  ∧ Progress.is_hint_used pm1 module difficulty topic question = true
  ∧ Progress.mark_hint_used pm1 module difficulty topic question = (true, pm1)
  ∧ Progress.stats pm1 = Progress.stats pm
  ∧ (∀ module' difficulty' topic' question',
       Progress.is_question_completed pm1 module' difficulty' topic' question'
       = Progress.is_question_completed pm module' difficulty' topic'
           question'
       ∧ Progress.is_hint_used
           (Progress.mark_question_completed pm module difficulty topic
              question).2 module' difficulty' topic' question'
         = Progress.is_hint_used pm module' difficulty' topic' question').
Proof.
  intros Hm. unfold Progress.mark_hint_used, Progress.is_hint_used,
    Progress.mark_question_completed, Progress.is_question_completed.
  rewrite Hm. simpl.
  split; [done|]. split; [by rewrite lookup_insert_eq|].
  split; [by rewrite insert_insert_eq|]. done.
Qed.

Lemma mark_hint_used_is_independent_witness :
  Progress.is_hint_used
    (Progress.mark_hint_used Progress.empty_store (Some "Cryptography")
       (Some "Advanced") (Progress.TopicStr "Topic2")
       (Some "B_Question.txt")).2
    (Some "Cryptography") (Some "Advanced") (Progress.TopicStr "Topic2")
    (Some "B_Question.txt") = true.
Proof.
  apply (mark_hint_used_is_independent Progress.empty_store
           (Some "Cryptography") (Some "Advanced")
           (Progress.TopicStr "Topic2") (Some "B_Question.txt")).
  reflexivity.
Defined.

(** X8: completion and hint usage are final until a reset: over any sequence
    of [record_attempt], [mark_question_completed] and [mark_hint_used],
    from any store, a question that was completed stays completed and a hint
    that was used stays used. *)
Theorem flags_persist_until_reset
  (pm : Progress.ProgressManager) (ops : list Progress.op)
  (module difficulty : option string) (topic : Progress.topic_arg)
  (question : option string) :
  forallb StoreSpec.keeps_progress ops = true →
  (Progress.is_question_completed pm module difficulty topic question = true →
   Progress.is_question_completed (Progress.run pm ops)
     module difficulty topic question = true)
  ∧ (Progress.is_hint_used pm module difficulty topic question = true →
     Progress.is_hint_used (Progress.run pm ops)
       module difficulty topic question = true).
Proof.
  revert pm. induction ops as [|o ops IH]; intros pm Hops; [done|].
  simpl in Hops. apply andb_true_iff in Hops as [Ho Hops].
  destruct (step_keeps_flags pm o module difficulty topic question Ho)
    as [Hc Hh].
  destruct (IH (Progress.step pm o).2 Hops) as [IHc IHh].
  simpl. split; intros H; [apply IHc, Hc, H|apply IHh, Hh, H].
Qed.

Lemma flags_persist_until_reset_witness :
  let pm :=
    (Progress.mark_question_completed Progress.empty_store
       (Some "Cryptography") None (Progress.TopicStr "Topic1")
       (Some "A_Question.txt")).2 in
  Progress.is_question_completed
    (Progress.run pm
       [Progress.RecordAttempt (Some "Cryptography") None
          (Progress.TopicStr "Topic1") (Some "A_Question.txt") false])
    (Some "Cryptography") None (Progress.TopicStr "Topic1")
    (Some "A_Question.txt") = true.
Proof.
  intros pm.
  apply (proj1 (flags_persist_until_reset pm
                  [Progress.RecordAttempt (Some "Cryptography") None
                     (Progress.TopicStr "Topic1") (Some "A_Question.txt")
                     false]
                  (Some "Cryptography") None (Progress.TopicStr "Topic1")
                  (Some "A_Question.txt") eq_refl)).
  reflexivity.
Defined.

(** * The configuration store *)

Section ConfigFacts.

Import Config.

Implicit Types (config : config_t) (l : list string) (x y d : string).

Lemma remove_first_elem_ne x y l :
  y ≠ x → y ∈ remove_first x l ↔ y ∈ l.
Proof.
  intros Hne. induction l as [|z l IH]; simpl; [done|].
  case_bool_decide as Hz.
  - subst z. rewrite elem_of_cons. split; [by right|].
    by intros [?|?].
  - by rewrite !elem_of_cons, IH.
Qed.

Lemma remove_first_elem x y l : y ∈ remove_first x l → y ∈ l.
Proof.
  induction l as [|z l IH]; simpl; [done|].
  case_bool_decide; rewrite !elem_of_cons; [by right|].
  intros [?|?]; [by left|right; by apply IH].
Qed.

Lemma remove_first_NoDup x l : NoDup l → NoDup (remove_first x l).
Proof.
  induction 1 as [|z l Hz Hl IH]; simpl; [constructor|].
  case_bool_decide as Hzx; [done|]. constructor; [|done].
  intros Hin. by apply Hz, (remove_first_elem x).
Qed.

Lemma filter_ne_absent x l : x ∉ l → filter (λ y, y ≠ x) l = l.
Proof.
  induction l as [|z l IH]; [done|].
  rewrite not_elem_of_cons. intros [Hz Hl].
  rewrite filter_cons_True by done. by rewrite IH.
Qed.

(** Without duplicates, removing the first occurrence removes them all and
    keeps the rest in place. *)
Lemma remove_first_filter x l :
  NoDup l → remove_first x l = filter (λ y, y ≠ x) l.
Proof.
  induction 1 as [|z l Hz Hl IH]; simpl; [done|].
  case_bool_decide as E.
  - subst z. rewrite filter_cons_False by (intros H; by apply H).
    by rewrite filter_ne_absent.
  - rewrite filter_cons_True by done. by rewrite IH.
Qed.

Lemma consistent_default : consistent default_config.
Proof. split; simpl; [constructor|done]. Qed.

Lemma consistent_append config d b :
  consistent config → d ∉ get_directories config →
  NoDup (get_directories config ++ [d])
  ∧ (base_directory config = Some b → b ∈ get_directories config ++ [d]).
Proof.
  intros [Hnd Hb] Hd. split.
  - apply NoDup_app. split; [done|]. split; [|apply NoDup_singleton].
    intros y Hy. rewrite list_elem_of_singleton. by intros ->.
  - intros H. apply elem_of_app. left. by apply Hb.
Qed.

Lemma step_consistent_config config o :
  consistent config → consistent (step config o).2.
Proof.
  intros HI. pose proof HI as [Hnd Hb].
  destruct o as [e s [d|]|e s [d|]|s d|s]; cbn [step].
  - unfold set_base_directory.
    destruct (invalid e (Some d)); [exact HI|].
    case_bool_decide as Hin; split; simpl.
    + exact Hnd.
    + by intros b [= <-].
    + by apply (consistent_append config d d).
    + intros b [= <-]. apply elem_of_app. right.
      by apply list_elem_of_singleton.
  - exact HI.
  - unfold add_directory.
    destruct (invalid e (Some d)); [exact HI|].
    case_bool_decide as Hin; split; simpl.
    + exact Hnd.
    + exact Hb.
    + by apply (consistent_append config d d).
    + intros b. by apply (consistent_append config d b).
  - exact HI.
  - unfold remove_directory.
    destruct (directories config) as [dirs|] eqn:E; [|done].
    unfold get_directories in Hnd, Hb. rewrite E in Hnd, Hb. simpl in *.
    case_bool_decide as Hin; [|exact HI].
    split; unfold get_directories; simpl.
    + by apply remove_first_NoDup.
    + intros b. case_bool_decide as Hbase.
      * intros H. by apply head_Some_elem_of.
      * intros H. apply remove_first_elem_ne; [congruence|by apply Hb].
  - apply consistent_default.
Qed.

End ConfigFacts.

(** X9: starting from the default configuration, after any sequence of
    [set_base_directory], [add_directory], [remove_directory] and
    [clear_all] calls, whatever the file system and the saves do, no
    directory is listed twice and the base directory, when set, is one of
    the listed directories. *)
Theorem config_stays_consistent (ops : list Config.op) :
  NoDup (Config.get_directories (Config.run Config.default_config ops))
  ∧ ∀ b,
      Config.get_base_directory (Config.run Config.default_config ops) = Some b →
      b ∈ Config.get_directories (Config.run Config.default_config ops).
Proof.
  change (Config.consistent (Config.run Config.default_config ops)).
  assert (Config.consistent Config.default_config) as H
    by apply consistent_default.
  revert H. generalize Config.default_config.
  induction ops as [|o ops IH]; intros config H; [done|].
  simpl. by apply IH, step_consistent_config.
Qed.

(** X10: a directory that is [None], empty or does not exist is refused:
    [set_base_directory] and [add_directory] return [False] and leave the
    configuration as it was, whatever a save would have done. *)
Theorem invalid_directory_is_refused
  (path_exists : string → bool) (saved : bool) (config : Config.config_t)
  (directory : option string) :
  (directory = None ∨ directory = Some ""
   ∨ ∃ d, directory = Some d ∧ path_exists d = false) →
  Config.set_base_directory path_exists saved config directory
  = (false, config)
  ∧ Config.add_directory path_exists saved config directory = (false, config).
Proof.
  intros H. unfold Config.set_base_directory, Config.add_directory.
  destruct directory as [d|]; [|done].
  assert (Config.invalid path_exists (Some d) = true) as ->; [|done].
  simpl. destruct H as [H|[[= ->]|(d' & [= <-] & ->)]]; [done|done|].
  apply orb_true_r.
Qed.

Lemma invalid_directory_is_refused_witness :
  Config.set_base_directory (λ _, false) true Config.default_config
    (Some "/home/student/ctf") = (false, Config.default_config)
  ∧ Config.add_directory (λ _, false) true Config.default_config
      (Some "/home/student/ctf") = (false, Config.default_config).
Proof.
  apply invalid_directory_is_refused.
  right. right. exists "/home/student/ctf". split; reflexivity.
Defined.

(** X11: for an existing, non-empty directory, [set_base_directory] makes it
    the base directory and lists it, keeping the directories listed before
    in their order, and returns what the save returned; [add_directory]
    lists it without touching the base directory, and adding it again
    returns [True] and changes nothing. *)
Theorem valid_directory_is_listed
  (path_exists : string → bool) (saved : bool) (config : Config.config_t)
  (d : string) :
  Py.nonempty d = true → path_exists d = true →
  let set := Config.set_base_directory path_exists saved config (Some d) in
  let add := Config.add_directory path_exists saved config (Some d) in
  set.1 = saved
  ∧ Config.get_base_directory set.2 = Some d
  ∧ d ∈ Config.get_directories set.2
  ∧ Config.get_directories config `prefix_of` Config.get_directories set.2
  ∧ Config.get_base_directory add.2 = Config.get_base_directory config
  ∧ d ∈ Config.get_directories add.2
  ∧ Config.get_directories config `prefix_of` Config.get_directories add.2
  ∧ Config.add_directory path_exists saved add.2 (Some d) = (true, add.2).
Proof.
  intros Hd He.
  assert (Config.invalid path_exists (Some d) = false) as Hinv
    by (simpl; by rewrite Hd, He).
  unfold Config.set_base_directory, Config.add_directory. rewrite Hinv.
  assert (d ∈ Config.get_directories config ++ [d]) as Hnew
    by (apply elem_of_app; right; by apply list_elem_of_singleton).
  case_bool_decide as Hin; simpl.
  - repeat split; try done.
    by rewrite bool_decide_eq_true_2.
  - repeat split; try done; try by apply prefix_app_r.
    by rewrite bool_decide_eq_true_2.
Qed.

Lemma valid_directory_is_listed_witness :
  Config.get_base_directory
    (Config.set_base_directory (λ _, true) true Config.default_config
       (Some "/home/student/ctf")).2 = Some "/home/student/ctf".
Proof.
  apply (valid_directory_is_listed (λ _, true) true Config.default_config
           "/home/student/ctf"); reflexivity.
Defined.

(** X12: removing a listed directory from a list without duplicates returns
    what the save returned, leaves the other directories in their order and
    the removed one no longer listed; if it was the base directory, the
    first remaining directory becomes the base directory, or none when the
    list is empty; otherwise the base directory stays.  Removing a
    directory that is not listed returns [False] and changes nothing. *)
Theorem remove_directory_unlists
  (saved : bool) (config : Config.config_t) (d : string) :
  NoDup (Config.get_directories config) →
  let r := Config.remove_directory saved config d in
  (d ∈ Config.get_directories config →
   r.1 = saved
   ∧ (d ∉ Config.get_directories r.2)
   ∧ Config.get_directories r.2
     = filter (λ y, y ≠ d) (Config.get_directories config)
   ∧ Config.get_base_directory r.2
     = (if bool_decide (Config.get_base_directory config = Some d)
        then head (Config.get_directories r.2)
        else Config.get_base_directory config))
  ∧ (d ∉ Config.get_directories config → r = (false, config)).
Proof.
  intros Hnd. unfold Config.remove_directory, Config.get_directories in *.
  destruct (Config.directories config) as [dirs|]; simpl in *.
  - split; intros Hin.
    + rewrite bool_decide_eq_true_2 by done. simpl.
      rewrite remove_first_filter by done.
      split; [done|]. split; [|done].
      rewrite list_elem_of_filter. by intros [? _].
    + by rewrite bool_decide_eq_false_2.
  - split; [|done]. intros Hin. by apply elem_of_nil in Hin.
Qed.

Lemma remove_directory_unlists_witness :
  let config :=
    {| Config.base_directory := Some "/ctf/a";
       Config.directories := Some ["/ctf/a"; "/ctf/b"] |} in
  Config.get_base_directory (Config.remove_directory true config "/ctf/a").2
  = Some "/ctf/b".
Proof.
  intros config.
  assert (NoDup (Config.get_directories config)) as Hnd
    by (apply (bool_decide_unpack _); vm_compute; exact I).
  assert ("/ctf/a" ∈ Config.get_directories config) as Hin
    by (apply (bool_decide_unpack _); vm_compute; exact I).
  destruct (proj1 (remove_directory_unlists true config "/ctf/a" Hnd) Hin)
    as (_ & _ & _ & ->).
  reflexivity.
Defined.

(** X13: a successful import lists exactly the imported directories that
    exist, in their order, and its base directory is the imported one when
    that exists, else the first existing directory of the list, else none
    ([head] of the filtered list); an imported configuration without base
    directory stays without one.  So after an import the base directory,
    when set, exists.  When the import
    file does not exist or cannot be read as a dictionary, the import
    returns [False] and the configuration is as before. *)
Theorem import_config_keeps_existing_directories
  (path_exists : string → bool) (saved : bool) (config : Config.config_t)
  (import_path : string) (loaded : option Config.config_t) :
  let r := Config.import_config path_exists saved config import_path loaded in
  (∀ new_config,
     path_exists import_path = true → loaded = Some new_config →
     r.1 = saved
     ∧ Config.get_directories r.2
       = List.filter path_exists (Config.get_directories new_config)
     ∧ (∀ d, d ∈ Config.get_directories r.2 → path_exists d = true)
     ∧ (∀ b, Config.get_base_directory r.2 = Some b → path_exists b = true)
     ∧ (∀ b, Config.get_base_directory new_config = Some b →
             path_exists b = true →
             Config.get_base_directory r.2 = Some b)
     ∧ (∀ b, Config.get_base_directory new_config = Some b →
             path_exists b = false →
             Config.get_base_directory r.2
             = head (List.filter path_exists
                       (Config.get_directories new_config)))
     ∧ (Config.get_base_directory new_config = None →
        Config.get_base_directory r.2 = None))
  ∧ (path_exists import_path = false ∨ loaded = None → r = (false, config)).
Proof.
  unfold Config.import_config. split.
  - intros new_config -> ->. simpl.
    assert (∀ d, d ∈ List.filter path_exists
                       (Config.get_directories new_config) →
                 path_exists d = true) as Hex.
    { intros d Hd%list_elem_of_In%filter_In. by destruct Hd. }
    split; [done|]. split; [done|]. split; [exact Hex|]. split.
    + unfold Config.get_base_directory. simpl. intros b.
      destruct (Config.base_directory new_config) as [b'|]; [|done].
      destruct (path_exists b') eqn:E; [by intros [= <-]|].
      intros H. by apply Hex, head_Some_elem_of.
    + unfold Config.get_base_directory. simpl.
      split; [|split]; [by intros b -> ->..|by intros ->].
  - intros [-> | ->]; [done|]. by destruct (negb (path_exists import_path)).
Qed.

Lemma import_config_keeps_existing_directories_witness :
  let r :=
    Config.import_config (λ p, negb (String.eqb p "/gone")) true
      Config.default_config "/tmp/export.json"
      (Some {| Config.base_directory := Some "/gone";
               Config.directories := Some ["/gone"; "/ctf/a"] |}) in
  r.1 = true
  ∧ Config.get_directories r.2 = ["/ctf/a"]
  ∧ Config.get_base_directory r.2 = Some "/ctf/a".
Proof.
  intros r.
  destruct (proj1 (import_config_keeps_existing_directories
                     (λ p, negb (String.eqb p "/gone")) true
                     Config.default_config "/tmp/export.json"
                     (Some {| Config.base_directory := Some "/gone";
                              Config.directories :=
                                Some ["/gone"; "/ctf/a"] |}))
              {| Config.base_directory := Some "/gone";
                 Config.directories := Some ["/gone"; "/ctf/a"] |}
              ltac:(reflexivity) ltac:(reflexivity))
    as (Hret & Hdirs & _ & _ & _ & Hbase & _).
  split; [exact Hret|]. split; [exact Hdirs|].
  exact (Hbase "/gone" ltac:(reflexivity) ltac:(reflexivity)).
Defined.

(** * The content resolver *)

Section Topics.

Import Paths.

Lemma topic_tuple_of_fst e : (topic_tuple_of e).1 = item e.
Proof.
  unfold topic_tuple_of. destruct (topic_name_txt e) as [text|]; [|done].
  by destruct (Py.nonempty (Py.strip text)).
Qed.

Lemma topic_tuples_fst (l : list dir_entry) :
  map fst (map topic_tuple_of l) = map item l.
Proof.
  induction l as [|e l IH]; simpl; [done|].
  by rewrite topic_tuple_of_fst, IH.
Qed.

Lemma startswith_nonempty p s :
  Py.nonempty p = true → Py.startswith p s = true → s ≠ "".
Proof. intros Hp Hs ->. by destruct p. Qed.

Lemma nonempty_ne s : Py.nonempty s = true → s ≠ "".
Proof. by intros H ->. Qed.

(** In an ascending list an element is not above a later one. *)
Lemma ascending_split {A} (key : A → Z) l1 x l2 y :
  ascending key (l1 ++ x :: l2) → y ∈ l2 → key x ≤ key y.
Proof.
  unfold ascending. induction l1 as [|z l1 IH]; simpl; intros Hs Hy.
  - inversion_clear Hs as [|?? _ Hall]. rewrite Forall_forall in Hall.
    by apply Hall.
  - inversion_clear Hs. by apply IH.
Qed.

End Topics.

(** One scan of a directory returns the listed directories whose name starts
    with [Topic], each as often as it is listed and nothing else; every
    returned pair has a directory name that starts with [Topic] and a
    display name that is not empty. *)
Lemma get_topics_scan_lists_topic_directories
  (listing : list Paths.dir_entry) :
  map fst (Paths.get_topics listing)
  ≡ₚ map Paths.item
       (filter (λ e, Paths.isdir e
                     && Py.startswith "Topic" (Paths.item e) = true) listing)
  ∧ ∀ dir_name display_name,
      (dir_name, display_name) ∈ Paths.get_topics listing →
      Py.startswith "Topic" dir_name = true
      ∧ display_name ≠ ""
      ∧ ∃ e, e ∈ listing ∧ Paths.item e = dir_name ∧ Paths.isdir e = true.
Proof.
  unfold Paths.get_topics. split.
  - rewrite sort_by_perm. by rewrite topic_tuples_fst.
  - intros d n. rewrite sort_by_perm, list_elem_of_fmap.
    intros (e & He & Hf). apply list_elem_of_filter in Hf as [Hk Hin].
    apply andb_true_iff in Hk as [Hdir Htopic].
    assert (d = Paths.item e) as ->.
    { rewrite <- (topic_tuple_of_fst e), <- He. done. }
    split; [done|]. split; [|by exists e].
    pose proof (startswith_nonempty "Topic" _ eq_refl Htopic) as Hne.
    revert He. unfold Paths.topic_tuple_of.
    destruct (Paths.topic_name_txt e) as [text|]; [|by intros [= ->]].
    destruct (Py.nonempty (Py.strip text)) eqn:E; intros [= ->]; [|done].
    by apply nonempty_ne.
Qed.

Section TopicMemo.

Import TopicCache.

Lemma scan_well_named listing : well_named (Paths.get_topics listing).
Proof.
  intros d n H.
  destruct (proj2 (get_topics_scan_lists_topic_directories listing) d n H)
    as (? & ? & _).
  done.
Qed.

(** Every list in the memo came from a scan. *)
Lemma run_well_named calls key topics :
  run calls !! key = Some topics → well_named topics.
Proof.
  unfold run.
  assert (∀ k t, (∅ : gmap string (list (string * string))) !! k = Some t →
                 well_named t) as H0.
  { intros k t H. by rewrite lookup_empty in H. }
  revert H0 key topics.
  generalize (∅ : gmap string (list (string * string))).
  induction calls as [|c calls IH]; intros cache Hc key topics; [apply Hc|].
  simpl. apply IH. intros k t.
  destruct c as [m d listing|]; simpl.
  - unfold get_topics. destruct (negb (Py.truthy m)); [apply Hc|].
    destruct (cache !! cache_key m d) as [stored|] eqn:E; [apply Hc|].
    destruct listing as [listing|]; [|apply Hc]. simpl.
    rewrite lookup_insert. case_decide; [|apply Hc].
    intros [= <-]. apply scan_well_named.
  - intros H. by rewrite lookup_empty in H.
Qed.

End TopicMemo.

(** X14: after any sequence of [get_topics] calls and changes of the base
    directory on a fresh path manager, every pair that [get_topics] returns
    has a directory name that starts with [Topic] and a display name that
    is not empty, whether the answer comes from the memo or from a scan.
    When the memo has no entry for the module and difficulty (and the
    module is given and the directory lists), the answer is the scan: the
    listed directories whose name starts with [Topic], each as often as
    listed and nothing else, and it is stored under the key.  When the memo
    has an entry, that stored list is the answer, whatever the directory
    lists now, and the memo stays as it is.  Without a module, or without a
    listing on a miss, the answer is empty and nothing is stored. *)
Theorem get_topics_lists_topic_directories
  (calls : list TopicCache.call) (module difficulty : option string)
  (listing : option (list Paths.dir_entry)) :
  let memo := TopicCache.run calls in
  let r := TopicCache.get_topics memo module difficulty listing in
  TopicCache.well_named r.1
  ∧ (Py.truthy module = true →
     memo !! TopicCache.cache_key module difficulty = None →
     ∀ entries, listing = Some entries →
       map fst r.1
       ≡ₚ map Paths.item
            (filter (λ e, Paths.isdir e
                          && Py.startswith "Topic" (Paths.item e) = true)
               entries)
       ∧ (∀ dir_name display_name,
            (dir_name, display_name) ∈ r.1 →
            ∃ e, e ∈ entries ∧ Paths.item e = dir_name
                 ∧ Paths.isdir e = true)
       ∧ r.2 = <[TopicCache.cache_key module difficulty := r.1]> memo)
  ∧ (Py.truthy module = true →
     ∀ topics, memo !! TopicCache.cache_key module difficulty = Some topics →
       r = (topics, memo))
  ∧ (Py.truthy module = false
     ∨ (memo !! TopicCache.cache_key module difficulty = None
        ∧ listing = None) →
     r = ([], memo)).
Proof.
  intros memo r. subst r. unfold TopicCache.get_topics.
  split; [|split; [|split]].
  - destruct (negb (Py.truthy module)); [by intros ?? ?%elem_of_nil|].
    destruct (memo !! TopicCache.cache_key module difficulty)
      as [stored|] eqn:E.
    + by apply (run_well_named calls _ _ E).
    + destruct listing as [entries|]; [|by intros ?? ?%elem_of_nil].
      apply scan_well_named.
  - intros -> -> entries ->. simpl.
    destruct (get_topics_scan_lists_topic_directories entries)
      as [Hperm Hall].
    split; [exact Hperm|]. split; [|done].
    intros d n H. by destruct (Hall d n H) as (_ & _ & He).
  - intros -> topics ->. done.
  - intros [-> | [-> ->]]; [done|].
    by destruct (negb (Py.truthy module)).
Qed.

Lemma get_topics_lists_topic_directories_witness :
  let dir name :=
    {| Paths.item := name; Paths.isdir := true;
       Paths.topic_name_txt := None |} in
  let calls :=
    [TopicCache.GetTopics (Some "Cryptography") (Some "Beginner")
       (Some [dir "Topic2"; dir "Topic1"])] in
  TopicCache.get_topics (TopicCache.run calls) (Some "Cryptography")
    (Some "Beginner") (Some [dir "Topic3"])
  = ([("Topic1", "Topic1"); ("Topic2", "Topic2")], TopicCache.run calls)
  ∧ map fst
      (TopicCache.get_topics (TopicCache.run calls) (Some "Cryptography")
         (Some "Advanced") (Some [dir "Topic3"; dir "Notes"])).1
    ≡ₚ ["Topic3"].
Proof.
  intros dir calls. split.
  - apply (proj1 (proj2 (proj2 (get_topics_lists_topic_directories calls
                                  (Some "Cryptography") (Some "Beginner")
                                  (Some [dir "Topic3"]))))); reflexivity.
  - apply (proj1 (proj2 (get_topics_lists_topic_directories calls
                           (Some "Cryptography") (Some "Advanced")
                           (Some [dir "Topic3"; dir "Notes"])))
             eq_refl eq_refl [dir "Topic3"; dir "Notes"] eq_refl).
Defined.

(** X15: in the list that [get_topics] returns an entry never has a larger
    sort key than a later entry; so a directory whose name does not parse
    stands before a directory with a parsed number only if that number is
    999 or more. *)
Theorem get_topics_order
  (listing : list Paths.dir_entry) (l1 l2 : list (string * string))
  (x y : string * string) :
  Paths.get_topics listing = l1 ++ x :: l2 → y ∈ l2 →
  Paths.sort_key x ≤ Paths.sort_key y
  ∧ (Paths.re_search x.1 = None →
     ∀ n, Paths.re_search y.1 = Some n → 999 ≤ n).
Proof.
  intros Hl Hy.
  assert (Paths.sort_key x ≤ Paths.sort_key y) as Hle.
  { apply (ascending_split Paths.sort_key l1 x l2 y); [|done].
    rewrite <- Hl. apply get_topics_ascending. }
  split; [done|]. intros Hx n Hn.
  unfold Paths.sort_key in Hle. by rewrite Hx, Hn in Hle.
Qed.

Lemma get_topics_order_witness :
  let dir name :=
    {| Paths.item := name; Paths.isdir := true;
       Paths.topic_name_txt := None |} in
  Paths.sort_key ("Topic2", "Topic2") ≤ Paths.sort_key ("TopicX", "TopicX").
Proof.
  intros dir.
  apply (get_topics_order [dir "TopicX"; dir "Topic10"; dir "Topic2"]
           [] [("Topic10", "Topic10"); ("TopicX", "TopicX")]
           ("Topic2", "Topic2") ("TopicX", "TopicX")).
  - reflexivity.
  - apply (bool_decide_unpack _). vm_compute. exact I.
Defined.

Section TopicNumber.

Import Paths.

Lemma digit_not_space c : Py.isdigit c = true → Py.isspace c = false.
Proof.
  destruct c as [[] [] [] [] [] [] [] []]; vm_compute; congruence.
Qed.

Lemma skip_spaces_app ws r :
  Py.all Py.isspace ws = true → skip_spaces (ws +:+ r) = skip_spaces r.
Proof.
  induction ws as [|c ws IH]; [done|]. simpl.
  intros [Hc Hws]%andb_true_iff. rewrite Hc. by apply IH.
Qed.

Lemma skip_spaces_digit c r :
  Py.isdigit c = true → skip_spaces (String c r) = String c r.
Proof. intros H. simpl. by rewrite (digit_not_space c H). Qed.

Lemma take_digits_app digits rest :
  Py.all Py.isdigit digits = true →
  (∀ c r, rest = String c r → Py.isdigit c = false) →
  take_digits (digits +:+ rest) = digits.
Proof.
  intros Hd Hrest. induction digits as [|c digits IH].
  - rewrite app_nil_l. destruct rest as [|c r]; [done|].
    simpl. by rewrite (Hrest c r eq_refl).
  - simpl in Hd. apply andb_true_iff in Hd as [Hc Hd].
    rewrite app_cons. simpl. rewrite Hc. by rewrite IH.
Qed.

Lemma substring_all s : substring 0 (String.length s) s = s.
Proof. rewrite <- (app_nil_r s) at 2. apply substring_prefix. Qed.

(** After the literal [Topic] come the white space and the digits. *)
Lemma match_here_topic s :
  match_here ("Topic" +:+ s)
  = match take_digits (skip_spaces s) with
    | EmptyString => None
    | digits => Some (Py.int_acc digits 0)
    end.
Proof.
  unfold match_here, Py.startswith. rewrite prefix_app, app_length.
  replace (String.length "Topic" + String.length s - 5)%nat
    with (String.length s) by (simpl; lia).
  change 5%nat with (String.length "Topic" + 0)%nat.
  by rewrite substring_skip, substring_all.
Qed.

Lemma re_search_here s n : match_here s = Some n → re_search s = Some n.
Proof.
  intros H. destruct s as [|c s]; [by vm_compute in H|].
  change (re_search (String c s))
    with (match match_here (String c s) with
          | Some n => Some n
          | None => re_search s
          end).
  by rewrite H.
Qed.

Lemma int_acc_nonneg s acc : 0 ≤ acc → 0 ≤ Py.int_acc s acc.
Proof.
  revert acc. induction s as [|c s IH]; intros acc Hacc; [done|].
  simpl. apply IH. lia.
Qed.

End TopicNumber.

(** X16: for a directory name made of [Topic], any white space, a
    non-empty run of decimal digits and a rest that does not start with a
    digit, the sort key is the number the digits write, and it is not
    negative. *)
Theorem topic_number_is_the_sort_key (ws digits rest display : string) :
  Py.all Py.isspace ws = true →
  Py.all Py.isdigit digits = true →
  digits ≠ "" →
  (∀ c r, rest = String c r → Py.isdigit c = false) →
  Paths.sort_key ("Topic" +:+ ws +:+ digits +:+ rest, display)
  = Py.int_acc digits 0
  ∧ 0 ≤ Py.int_acc digits 0.
Proof.
  intros Hws Hd Hne Hrest. split; [|apply int_acc_nonneg; lia].
  unfold Paths.sort_key. cbn [fst].
  rewrite (re_search_here _ (Py.int_acc digits 0)); [done|].
  rewrite match_here_topic, skip_spaces_app by done.
  destruct digits as [|c digits]; [done|].
  simpl in Hd. apply andb_true_iff in Hd as [Hc Hd].
  rewrite app_cons, skip_spaces_digit by done.
  rewrite <- app_cons, take_digits_app; [done| |done].
  simpl. by rewrite Hc, Hd.
Qed.

Lemma topic_number_is_the_sort_key_witness :
  Paths.sort_key ("Topic" +:+ " " +:+ "12" +:+ " - Caesar", "Caesar")
  = Py.int_acc "12" 0
  ∧ 0 ≤ Py.int_acc "12" 0.
Proof.
  apply topic_number_is_the_sort_key; try reflexivity; try discriminate.
  intros c r [= <- _]. reflexivity.
Defined.

(** X17: [_extract_content] returns the empty string for an empty text, for
    a text without the opening character (closing characters or not), and
    for a text whose first opening character has no closing character
    after it, even when closing characters stand before it. *)
Theorem extract_content_without_region (o cl : ascii) :
  Paths._extract_content "" o cl = ""
  ∧ (∀ text, Py.contains o text = false →
             Paths._extract_content text o cl = "")
  ∧ (∀ a b, Py.contains o a = false → Py.contains cl b = false →
            Paths._extract_content (a +:+ String o b) o cl = "").
Proof.
  split; [done|]. split; [apply extract_content_absent|].
  intros a b Ha Hb. unfold Paths._extract_content.
  set (text := a +:+ String o b).
  assert (Py.nonempty text = true) as -> by (subst text; by destruct a).
  assert (Py.find o text 0 = Z.of_nat (String.length a)) as ->.
  { unfold Py.find. subst text. simpl. by rewrite find_from_first. }
  assert ((Z.of_nat (String.length a) =? -1) = false) as ->
    by (apply Z.eqb_neq; lia).
  assert (Py.find cl text (Z.of_nat (String.length a) + 1) = -1) as Hend.
  { unfold Py.find. subst text.
    replace (Z.to_nat (Z.of_nat (String.length a) + 1))
      with (String.length a + 1)%nat by lia.
    rewrite find_from_skip. simpl. by apply find_from_absent. }
  cbn [negb]. rewrite Hend. reflexivity.
Qed.

Lemma extract_content_without_region_witness :
  Paths._extract_content "] see [the note" "[" "]" = "".
Proof.
  apply (proj2 (proj2 (extract_content_without_region "[" "]"))
           "] see " "the note"); reflexivity.
Defined.

(** X18: a question file with a non-empty description region and no opening
    brace gives the description followed by a blank line as display text and
    the empty string as literal question; a file with a non-empty question
    region and no opening bracket gives the question as both outputs. *)
Theorem load_question_content_single_region
  (a b r question_content : string) :
  (question_content = a +:+ "[" +:+ b +:+ "]" +:+ r →
   Py.contains "[" a = false → Py.contains "]" b = false →
   Py.nonempty (Py.strip b) = true →
   Py.contains "{" question_content = false →
   Paths.load_question_content question_content
   = (Py.strip b +:+ Py.blank_line, ""))
  ∧ (question_content = a +:+ "{" +:+ b +:+ "}" +:+ r →
     Py.contains "{" a = false → Py.contains "}" b = false →
     Py.nonempty (Py.strip b) = true →
     Py.contains "[" question_content = false →
     Paths.load_question_content question_content
     = (Py.strip b, Py.strip b)).
Proof.
  split; intros E Ha Hb Hne Hno; unfold Paths.load_question_content.
  - rewrite (extract_content_absent "{" "}") by done.
    assert (Paths._extract_content question_content "[" "]" = Py.strip b)
      as -> by (rewrite E; by apply extract_content_region).
    rewrite Hne. simpl. by rewrite app_nil_l.
  - rewrite (extract_content_absent "[" "]") by done.
    assert (Paths._extract_content question_content "{" "}" = Py.strip b)
      as -> by (rewrite E; by apply extract_content_region).
    rewrite Hne. simpl. by rewrite app_nil_l.
Qed.

Lemma load_question_content_single_region_witness :
  Paths.load_question_content "[ Read the log. ] Good luck"
  = ("Read the log." +:+ Py.blank_line, "").
Proof.
  apply (proj1 (load_question_content_single_region
                  "" " Read the log. " " Good luck"
                  "[ Read the log. ] Good luck")); reflexivity.
Defined.

Section Identifier.

Import Paths.

Lemma replace_aux_absent old new s :
  Py.has_sub old s = false → Py.replace_aux old new s 0 = s.
Proof.
  induction s as [|c s IH]; [done|].
  cbn [Py.has_sub]. intros [H1 H2]%orb_false_iff.
  cbn [Py.replace_aux]. rewrite H1. by rewrite IH.
Qed.

Lemma base_name_prompt_style f : base_name ("PS_" +:+ f) = base_name f.
Proof. unfold base_name, Py.replace. by destruct f. Qed.

Lemma contains_token c tok rest :
  Py.contains c (tok +:+ String c rest) = true.
Proof.
  induction tok as [|x tok IH].
  - rewrite app_nil_l. simpl. by rewrite Ascii.eqb_refl.
  - rewrite app_cons. simpl. by destruct (Ascii.eqb x c).
Qed.

(** The first piece of a split is what stands before the first separator. *)
Lemma split_head c tok rest :
  Py.contains c tok = false →
  head (Py.split c (tok +:+ String c rest)) = Some tok.
Proof.
  induction tok as [|x tok IH]; intros Htok.
  - rewrite app_nil_l. simpl. by rewrite Ascii.eqb_refl.
  - rewrite app_cons. simpl in *.
    destruct (Ascii.eqb x c); [done|]. specialize (IH Htok).
    destruct (Py.split c (tok +:+ String c rest)) as [|h t]; [done|].
    simpl in *. congruence.
Qed.

Lemma contains_single c x : Py.contains c (String x "") = Ascii.eqb x c.
Proof. simpl. by destruct (Ascii.eqb x c). Qed.

End Identifier.

(** X19: for a file name in which [PS_] does not occur, the prompt-style
    name [PS_<name>] has the same identifier as the name itself; the
    identifier of a name with an underscore is the text before its first
    underscore, and the identifier of a name without underscore is its first
    character. *)
Theorem identifier_of_question_file (question_file : string) :
  Py.has_sub "PS_" question_file = false →
  Paths.identifier ("PS_" +:+ question_file) = Paths.identifier question_file
  ∧ (∀ tok rest,
       question_file = tok +:+ "_" +:+ rest → Py.contains "_" tok = false →
       Paths.identifier question_file = Some tok)
  ∧ (∀ c r,
       question_file = String c r → Py.contains "_" question_file = false →
       Paths.identifier question_file = Some (String c "")).
Proof.
  intros Hps.
  assert (Paths.base_name question_file = question_file) as Hbase
    by (by apply replace_aux_absent).
  unfold Paths.identifier. rewrite base_name_prompt_style, Hbase.
  split; [done|]. split.
  - intros tok rest -> Htok.
    change (tok +:+ "_" +:+ rest) with (tok +:+ String "_" rest).
    by rewrite contains_token, split_head.
  - intros c r -> Hno. by rewrite Hno.
Qed.

Lemma identifier_of_question_file_witness :
  Paths.identifier ("PS_" +:+ "B_Question.txt")
  = Paths.identifier "B_Question.txt".
Proof.
  apply (identifier_of_question_file "B_Question.txt"). reflexivity.
Defined.

(** X20: the identifier has no underscore in it, and the lookup of the first
    character fails exactly when nothing is left of the file name once every
    [PS_] is taken out. *)
Theorem identifier_has_no_underscore (question_file : string) :
  (Paths.identifier question_file = None
   ↔ Paths.base_name question_file = "")
  ∧ ∀ identifier,
      Paths.identifier question_file = Some identifier →
      Py.contains "_" identifier = false.
Proof.
  unfold Paths.identifier.
  destruct (Py.contains "_" (Paths.base_name question_file)) eqn:E.
  - pose proof (split_not_nil "_" (Paths.base_name question_file)) as Hne.
    pose proof (split_no_sep "_" (Paths.base_name question_file)) as Hno.
    destruct (Py.split "_" (Paths.base_name question_file)) as [|h t];
      [done|].
    simpl. split.
    + split; [done|]. intros H. by rewrite H in E.
    + intros id [= <-]. by inversion_clear Hno.
  - destruct (Paths.base_name question_file) as [|c r]; [done|].
    split; [done|]. intros id [= <-]. rewrite contains_single.
    simpl in E. by destruct (Ascii.eqb c "_").
Qed.

Section Questions.

Import Paths.

Implicit Types (l : list string) (x y : string).

Lemma insert_sorted_perm x l : Py.insert_sorted x l ≡ₚ x :: l.
Proof.
  induction l as [|y l IH]; simpl; [done|].
  destruct (String.leb x y); [done|].
  rewrite IH. apply Permutation_swap.
Qed.

Lemma sorted_perm l : Py.sorted l ≡ₚ l.
Proof.
  induction l as [|x l IH]; simpl; [done|].
  by rewrite insert_sorted_perm, IH.
Qed.

Lemma insert_sorted_sorted x l :
  StronglySorted String.le l → StronglySorted String.le (Py.insert_sorted x l).
Proof.
  induction 1 as [|y l Hl IH Hy]; simpl.
  - repeat constructor.
  - destruct (String.leb x y) eqn:E.
    + assert (String.le x y) as Hxy by (unfold String.le; by rewrite E).
      constructor; [by constructor|]. constructor; [done|].
      eapply Forall_impl; [exact Hy|]. intros z Hz. by trans y.
    + assert (String.le y x) as Hyx.
      { destruct (total String.le x y) as [H|H]; [|done].
        unfold String.le in H. by rewrite E in H. }
      constructor; [done|]. rewrite insert_sorted_perm. by constructor.
Qed.

Lemma sorted_sorted l : StronglySorted String.le (Py.sorted l).
Proof.
  induction l as [|x l IH]; simpl; [constructor|].
  by apply insert_sorted_sorted.
Qed.

Lemma filter_sorted (P : string → Prop) `{!∀ x, Decision (P x)} l :
  StronglySorted String.le l → StronglySorted String.le (filter P l).
Proof.
  induction 1 as [|y l Hl IH Hy]; [constructor|].
  destruct (decide (P y)).
  - rewrite filter_cons_True by done. constructor; [done|].
    apply Forall_forall. intros z [_ Hz]%list_elem_of_filter.
    rewrite Forall_forall in Hy. by apply Hy.
  - by rewrite filter_cons_False.
Qed.

(** The text files of one directory: those of the listing that end in
    [.txt], each as often as listed, in ascending order. *)
Lemma txt_files_spec q_type listing :
  ∃ files,
    txt_files q_type listing = map (λ f, (q_type, f)) files
    ∧ files ≡ₚ filter (λ f, Py.endswith ".txt" f = true) (default [] listing)
    ∧ StronglySorted String.le files.
Proof.
  destruct listing as [items|]; simpl.
  - eexists. split; [done|]. split.
    + by rewrite sorted_perm.
    + apply filter_sorted, sorted_sorted.
  - exists []. repeat split; constructor.
Qed.

End Questions.

(** X21: for a module, topic and topic path that are given, [get_questions]
    returns the [.txt] files of the [Questions] directory as [regular]
    entries, followed by the [.txt] files of the prompt-style directory as
    [prompt] entries; each group holds exactly the listed files ending in
    [.txt] and is in ascending order.  A directory that does not exist
    contributes nothing, and without module, topic or topic path the result
    is empty. *)
Theorem get_questions_lists_text_files
  (module : option string) (topic : Progress.topic_arg)
  (topic_path : option string) (questions_dir prompt_dir : option (list string)) :
  Paths.get_questions module topic topic_path None None = []
  ∧ (Py.truthy module = false ∨ Progress.topic_truthy topic = false
     ∨ Py.truthy topic_path = false →
     Paths.get_questions module topic topic_path questions_dir prompt_dir = [])
  ∧ (Py.truthy module = true → Progress.topic_truthy topic = true →
     Py.truthy topic_path = true →
     ∃ regular prompt,
       Paths.get_questions module topic topic_path questions_dir prompt_dir
       = map (λ f, ("regular", f)) regular ++ map (λ f, ("prompt", f)) prompt
       ∧ regular ≡ₚ filter (λ f, Py.endswith ".txt" f = true)
                      (default [] questions_dir)
       ∧ prompt ≡ₚ filter (λ f, Py.endswith ".txt" f = true)
                     (default [] prompt_dir)
       ∧ StronglySorted String.le regular
       ∧ StronglySorted String.le prompt).
Proof.
  unfold Paths.get_questions. split; [|split].
  - by destruct (negb (Py.truthy module) || negb (Progress.topic_truthy topic)),
      (negb (Py.truthy topic_path)).
  - intros [-> | [-> | ->]]; simpl; [done| |].
    + by rewrite orb_true_r.
    + by destruct (negb (Py.truthy module) || negb (Progress.topic_truthy topic)).
  - intros -> -> ->. simpl.
    destruct (txt_files_spec "regular" questions_dir) as (R & -> & HR & HsR).
    destruct (txt_files_spec "prompt" prompt_dir) as (P & -> & HP & HsP).
    by exists R, P.
Qed.

Lemma get_questions_lists_text_files_witness :
  Paths.get_questions (Some "Cryptography") (Progress.TopicStr "Topic1")
    (Some "/ctf/Cryptography/Beginner/Topic1")
    (Some ["B_Question.txt"; "notes.md"; "A_Question.txt"]) None
  = [("regular", "A_Question.txt"); ("regular", "B_Question.txt")].
Proof.
  destruct (proj2 (proj2 (get_questions_lists_text_files
                            (Some "Cryptography") (Progress.TopicStr "Topic1")
                            (Some "/ctf/Cryptography/Beginner/Topic1")
                            (Some ["B_Question.txt"; "notes.md";
                                   "A_Question.txt"]) None))
              eq_refl eq_refl eq_refl) as (R & P & _ & _).
  reflexivity.
Defined.

(** * The callers of the store *)

Section Callers.

Import Progress StoreSpec App.

Lemma penalty_stats app question_file pm :
  Progress.progress (penalty app question_file pm) = Progress.progress pm
  ∧ get_overall_stats (penalty app question_file pm)
    = (if missing (current_module app) (current_topic app) question_file
       then get_overall_stats pm
       else gain false (get_overall_stats pm)).
Proof.
  unfold penalty, record_attempt.
  by destruct (missing (current_module app) (current_topic app) question_file).
Qed.

End Callers.

Section CheckAnswer.

Import Progress StoreSpec App.

Lemma record_attempt_overall pm module difficulty topic question c :
  missing module topic question = false →
  get_overall_stats (record_attempt pm module difficulty topic question c).2
  = gain c (get_overall_stats pm).
Proof.
  intros Hm. unfold record_attempt, get_overall_stats, gain. rewrite Hm.
  by destruct c.
Qed.

Lemma record_attempt_progress pm module difficulty topic question c :
  Progress.progress (record_attempt pm module difficulty topic question c).2
  = Progress.progress pm.
Proof.
  unfold record_attempt. by destruct (missing module topic question).
Qed.

Lemma mark_question_completed_stats pm module difficulty topic question :
  stats (mark_question_completed pm module difficulty topic question).2
  = stats pm.
Proof.
  unfold mark_question_completed. by destruct (missing module topic question).
Qed.

Lemma mark_question_completed_lookup pm module difficulty topic question :
  missing module topic question = false →
  is_question_completed
    (mark_question_completed pm module difficulty topic question).2
    module difficulty topic question = true.
Proof.
  intros Hm. unfold mark_question_completed, is_question_completed.
  rewrite Hm. simpl. by rewrite lookup_insert_eq.
Qed.

(** The store that a judged submission leaves. *)
Lemma check_answer_progress app question_file user_answer correct_answer w :
  Py.nonempty (Py.strip user_answer) = true →
  App.progress
    (check_answer app question_file user_answer (Some correct_answer) w).2
  = let recorded :=
      (record_attempt (App.progress app) (current_module app)
         (current_difficulty app) (current_topic app) question_file
         (is_correct correct_answer user_answer)).2 in
    if w && is_correct correct_answer user_answer
    then (mark_question_completed recorded (current_module app)
            (current_difficulty app) (current_topic app) question_file).2
    else recorded.
Proof. intros Hu. unfold check_answer. by rewrite Hu. Qed.

End CheckAnswer.

(** X22: a submission that is not blank, for a question with an answer file
    and a non-empty module, topic and question, records exactly one attempt
    in the global totals, correct or not as it was judged; judged correct
    with the widgets of the question present, it leaves the question
    completed; judged wrong, or without the widgets, it leaves all
    completion and hint flags as they were.  A blank submission and a
    question without answer file leave the application as it was. *)
Theorem check_answer_records_one_attempt
  (app : App.CTFApplication) (question_file : option string)
  (user_answer correct_answer : string) (has_result_label : bool) :
  Py.nonempty (Py.strip user_answer) = true →
  Progress.missing (App.current_module app) (App.current_topic app)
    question_file = false →
  let after :=
    (App.check_answer app question_file user_answer (Some correct_answer)
       has_result_label).2 in
  let judged := App.is_correct correct_answer user_answer in
  Progress.get_overall_stats (App.progress after)
  = StoreSpec.gain judged (Progress.get_overall_stats (App.progress app))
  ∧ (judged = true → has_result_label = true →
     Progress.is_question_completed (App.progress after)
       (App.current_module app) (App.current_difficulty app)
       (App.current_topic app) question_file = true)
  ∧ (judged = false ∨ has_result_label = false →
     Progress.progress (App.progress after)
     = Progress.progress (App.progress app))
  ∧ (App.check_answer app question_file user_answer None
       has_result_label).2 = app.
Proof.
  intros Hu Hm after judged. subst after judged.
  rewrite check_answer_progress by done.
  split; [|split; [|split]].
  - destruct (has_result_label && App.is_correct correct_answer user_answer).
    + unfold Progress.get_overall_stats.
      rewrite mark_question_completed_stats.
      by apply record_attempt_overall.
    + by apply record_attempt_overall.
  - intros -> ->. simpl. by apply mark_question_completed_lookup.
  - intros Hor.
    assert (has_result_label && App.is_correct correct_answer user_answer
            = false) as ->.
    { destruct Hor as [-> | ->]; [apply andb_false_r|done]. }
    apply record_attempt_progress.
  - unfold App.check_answer. by rewrite Hu.
Qed.

Lemma check_answer_records_one_attempt_witness :
  let app :=
    App.handle App.start
      (App.Navigate (Some "Cryptography") (Some "Beginner")
         (Progress.TopicPair "Topic1" "Caesar")) in
  Progress.get_overall_stats
    (App.progress
       (App.check_answer app (Some "A_Question.txt") "Cat" (Some "cat|dog")
          true).2)
  = StoreSpec.gain (App.is_correct "cat|dog" "Cat")
      (Progress.get_overall_stats (App.progress app)).
Proof.
  intros app.
  apply (check_answer_records_one_attempt app (Some "A_Question.txt")
           "Cat" "cat|dog" true); reflexivity.
Defined.

(** X23: showing a hint never changes a completion or hint flag and never
    adds a correct attempt; it adds one wrong attempt to the global totals
    at difficulty [Intermediate] and three at [Advanced], provided there is
    a hint and the module, topic and question are not empty, and none
    otherwise. *)
Theorem show_hint_adds_wrong_attempts
  (app : App.CTFApplication) (question_file hint_content : option string) :
  let after := App.show_hint app question_file hint_content in
  let n :=
    if Py.truthy hint_content
       && negb (Progress.missing (App.current_module app)
                  (App.current_topic app) question_file)
    then if bool_decide (App.current_difficulty app = Some "Intermediate")
         then 1
         else if bool_decide (App.current_difficulty app = Some "Advanced")
         then 3 else 0
    else 0 in
  Progress.progress (App.progress after) = Progress.progress (App.progress app)
  ∧ Progress.get_overall_stats (App.progress after)
    = ((Progress.get_overall_stats (App.progress app)).1 + n,
       (Progress.get_overall_stats (App.progress app)).2).
Proof.
  intros after n. subst after n. unfold App.show_hint.
  destruct (Py.truthy hint_content); simpl.
  2:{ split; [done|]. unfold Progress.get_overall_stats. simpl.
      f_equal. lia. }
  repeat case_bool_decide; simpl;
    repeat match goal with
      | |- context [App.penalty app question_file ?pm] =>
          let H1 := fresh in let H2 := fresh in
          destruct (penalty_stats app question_file pm) as [H1 H2];
          rewrite H1, H2; clear H1 H2
      end;
    destruct (Progress.missing (App.current_module app)
                (App.current_topic app) question_file);
    simpl; (split; [done|]);
    unfold StoreSpec.gain, Progress.get_overall_stats; simpl;
    f_equal; lia.
Qed.

(** * Completion of modules *)

Section CompletionFacts.

Import Progress Completion.

Context (get_topics : option string → option string → list (string * string))
  (get_questions :
     option string → option string → topic_arg → list (string * string))
  (difficulty_exists : option string → string → bool)
  (pm : ProgressManager).

(** The inner loop: it adds the number of completed questions to the first
    counter. *)
Lemma count_completed_questions module difficulty topic_dir
  (questions : list (string * string)) (acc : Z * Z) :
  ∃ k,
    fold_left
      (λ acc q,
         if is_question_completed pm module difficulty topic_dir (Some q.2)
         then (acc.1 + 1, acc.2)
         else acc)
      questions acc
    = (acc.1 + k, acc.2)
    ∧ 0 ≤ k ≤ Z.of_nat (length questions)
    ∧ (forallb
         (λ q, is_question_completed pm module difficulty topic_dir
                 (Some q.2))
         questions = true →
       k = Z.of_nat (length questions)).
Proof.
  revert acc. induction questions as [|q questions IH]; intros acc.
  - exists 0. simpl. split; [destruct acc; simpl; f_equal; lia|].
    split; [lia|done].
  - cbn [fold_left forallb length].
    destruct (is_question_completed pm module difficulty topic_dir
                (Some q.2)).
    + destruct (IH (acc.1 + 1, acc.2)) as (k & -> & Hk & Hall).
      exists (k + 1). simpl. split; [f_equal; lia|]. split; [lia|].
      intros H. rewrite Hall by done. lia.
    + destruct (IH acc) as (k & -> & Hk & Hall).
      exists k. split; [done|]. split; [lia|done].
Qed.

Lemma count_topics_spec module difficulty (topics : list (string * string))
  (acc : Z * Z) :
  ∃ k t,
    count_topics get_questions pm module difficulty topics acc
    = (acc.1 + k, acc.2 + t)
    ∧ 0 ≤ k ≤ t
    ∧ (forallb
         (λ topic,
            is_topic_completed get_questions pm module difficulty
              (TopicPair topic.1 topic.2))
         topics = true →
       k = t ∧ (topics ≠ [] → 1 ≤ t)).
Proof.
  unfold count_topics. revert acc.
  induction topics as [|topic topics IH]; intros acc.
  - exists 0, 0. simpl. split; [destruct acc; simpl; f_equal; lia|].
    split; [lia|done].
  - cbn [fold_left forallb].
    set (questions := get_questions module difficulty (TopicStr topic.1)).
    destruct (count_completed_questions module difficulty (TopicStr topic.1)
                questions (acc.1, acc.2 + Z.of_nat (length questions)))
      as (k1 & Hq & Hk1 & Hall1).
    cbn [fst snd] in Hq. rewrite Hq.
    destruct (IH (acc.1 + k1, acc.2 + Z.of_nat (length questions)))
      as (k2 & t2 & Ht & Hk2 & Hall2).
    cbn [fst snd] in Ht. rewrite Ht.
    exists (k1 + k2), (Z.of_nat (length questions) + t2).
    split; [f_equal; lia|]. split; [lia|].
    intros [Htopic Hrest]%andb_true_iff.
    destruct (Hall2 Hrest) as [-> _].
    unfold is_topic_completed in Htopic. simpl in Htopic.
    fold questions in Htopic.
    destruct questions as [|q questions'] eqn:E; [done|].
    rewrite Hall1 by done. split; [done|].
    intros _. simpl length. lia.
Qed.

Lemma count_difficulties_spec module (ds : list string) (acc : Z * Z) :
  ∃ k t,
    fold_left
      (λ acc difficulty,
         if difficulty_exists module difficulty
         then count_topics get_questions pm module (Some difficulty)
                (get_topics module (Some difficulty)) acc
         else acc)
      ds acc
    = (acc.1 + k, acc.2 + t)
    ∧ 0 ≤ k ≤ t
    ∧ (forallb
         (λ difficulty,
            if difficulty_exists module difficulty
            then is_difficulty_completed get_topics get_questions pm module
                   (Some difficulty)
            else true)
         ds = true →
       k = t ∧ (existsb (difficulty_exists module) ds = true → 1 ≤ t)).
Proof.
  revert acc. induction ds as [|d ds IH]; intros acc.
  - exists 0, 0. simpl. split; [destruct acc; simpl; f_equal; lia|].
    split; [lia|done].
  - cbn [fold_left forallb existsb].
    destruct (difficulty_exists module d).
    + destruct (count_topics_spec module (Some d)
                  (get_topics module (Some d)) acc)
        as (k1 & t1 & -> & Hk1 & Hall1).
      destruct (IH (acc.1 + k1, acc.2 + t1)) as (k2 & t2 & Ht & Hk2 & Hall2).
      cbn [fst snd] in Ht. rewrite Ht.
      exists (k1 + k2), (t1 + t2).
      split; [f_equal; lia|]. split; [lia|].
      intros [Hd Hrest]%andb_true_iff.
      destruct (Hall2 Hrest) as [-> _].
      unfold is_difficulty_completed in Hd.
      destruct (get_topics module (Some d)) as [|topic topics] eqn:E;
        [done|].
      destruct (Hall1 Hd) as [-> Hone]. split; [done|].
      intros _. specialize (Hone ltac:(done)). lia.
    + destruct (IH acc) as (k2 & t2 & -> & Hk2 & Hall2).
      exists k2, t2. split; [done|]. split; [done|]. simpl. exact Hall2.
Qed.

End CompletionFacts.

(** X24: the counters of [calculate_module_completion] always satisfy
    [0 <= completed_questions <= total_questions]; and whenever
    [is_module_completed] reports a module completed, the two counters are
    equal, so that its progress bar is full, with at least one question
    counted for [Getting Started] and for a module of which some difficulty
    directory exists. *)
Theorem completed_module_counts_every_question
  (get_topics : option string → option string → list (string * string))
  (get_questions :
     option string → option string → Progress.topic_arg →
     list (string * string))
  (difficulty_exists : option string → string → bool)
  (pm : Progress.ProgressManager) (module : option string) :
  let counts :=
    Completion.module_question_counts get_topics get_questions
      difficulty_exists pm module in
  0 ≤ counts.1 ≤ counts.2
  ∧ (Completion.is_module_completed get_topics get_questions
       difficulty_exists pm module = true →
     counts.1 = counts.2
     ∧ (module = Some "Getting Started"
        ∨ existsb (difficulty_exists module) Completion.difficulties = true →
        1 ≤ counts.2)).
Proof.
  intros counts. subst counts.
  unfold Completion.module_question_counts, Completion.is_module_completed.
  destruct (negb (Py.truthy module)); [simpl; split; [lia|done]|].
  case_bool_decide as Hgs.
  - destruct (count_topics_spec get_questions pm module None
                (get_topics module None) (0, 0))
      as (k & t & -> & Hk & Hall).
    simpl. split; [lia|].
    destruct (get_topics module None) as [|topic topics] eqn:E; [done|].
    intros H. destruct (Hall H) as [-> Hone]. split; [done|].
    intros _. by apply Hone.
  - destruct (count_difficulties_spec get_topics get_questions
                difficulty_exists pm module Completion.difficulties (0, 0))
      as (k & t & -> & Hk & Hall).
    simpl. split; [lia|].
    intros H. destruct (Hall H) as [-> Hone]. split; [done|].
    intros [Hm|He]; [done|by apply Hone].
Qed.

Lemma completed_module_counts_every_question_witness :
  let get_topics (module difficulty : option string) :=
    [("Topic1", "Welcome")] in
  let get_questions (module difficulty : option string)
        (topic : Progress.topic_arg) :=
    [("regular", "A_Question.txt")] in
  let pm :=
    (Progress.mark_question_completed Progress.empty_store
       (Some "Getting Started") None (Progress.TopicStr "Topic1")
       (Some "A_Question.txt")).2 in
  let counts :=
    Completion.module_question_counts get_topics get_questions
      (λ _ _, false) pm (Some "Getting Started") in
  counts.1 = counts.2 ∧ 1 ≤ counts.2.
Proof.
  intros get_topics get_questions pm counts.
  destruct (proj2 (completed_module_counts_every_question get_topics
                     get_questions (λ _ _, false) pm
                     (Some "Getting Started")) eq_refl) as [H1 H2].
  split; [exact H1|]. apply H2. left. reflexivity.
Defined.

(** * The topic rollup and its prefix *)

Section TopicRollup.

Import Progress StoreSpec.

(** Two prefixes that pick the same recorded keys give the same rollup. *)
Lemma rollup_of_agree p1 p2 (m : gmap string attempt) :
  (∀ k a, m !! k = Some a → Py.startswith p1 k = Py.startswith p2 k) →
  rollup_of p1 m = rollup_of p2 m.
Proof.
  induction m as [|k a m Hk IH] using map_ind; intros Hagree.
  - by rewrite !rollup_of_empty.
  - rewrite !rollup_of_insert_fresh by done.
    rewrite (Hagree k a) by (by rewrite lookup_insert_eq).
    rewrite IH; [done|].
    intros j b Hj. apply (Hagree j b). rewrite lookup_insert_ne; [done|].
    intros ->. congruence.
Qed.

End TopicRollup.

(** X25: [get_topic_stats] never counts less than the records of its own
    topic: in every state reached from the empty store it is at least the
    rollup over the keys that start with
    [<module>/<difficulty-or-None>/<topicDir>/]; and it equals that rollup
    whenever every recorded key that starts with
    [<module>/<difficulty-or-None>/<topicDir>] goes on with the slash, that
    is, when no recorded topic directory has a name that extends the
    given one. *)
Theorem get_topic_stats_counts_at_least_its_topic
  (ops : list Progress.op) (module difficulty : option string)
  (topic : Progress.topic_arg) :
  let pm := Progress.run Progress.empty_store ops in
  let with_slash :=
    Progress._create_question_key module difficulty topic (Some "") in
  StoreSpec.pair_le (Progress.rollup pm with_slash)
    (Progress.get_topic_stats pm module difficulty topic)
  ∧ ((∀ k a, Progress.attempts (Progress.stats pm) !! k = Some a →
             Py.startswith (Py.init with_slash) k = true →
             Py.startswith with_slash k = true) →
     Progress.get_topic_stats pm module difficulty topic
     = Progress.rollup pm with_slash).
Proof.
  intros pm with_slash.
  assert (∀ k, Py.startswith with_slash k = true →
               Py.startswith (Py.init with_slash) k = true) as Hsub.
  { intros k. subst with_slash. rewrite key_form. cbn [Py.fmt].
    rewrite app_nil_r, <- !app_assoc, init_snoc. apply startswith_app_l. }
  unfold Progress.get_topic_stats. fold with_slash.
  rewrite !rollup_unfold. split.
  - apply rollup_of_mono; [exact Hsub|].
    intros k a H. destruct (records_wellformed_run ops) as [Hrec _].
    destruct (Hrec k a H). lia.
  - intros Hex. apply rollup_of_agree. intros k a Hk.
    destruct (Py.startswith (Py.init with_slash) k) eqn:E1.
    + symmetry. by apply (Hex k a).
    + destruct (Py.startswith with_slash k) eqn:E2; [|done].
      apply Hsub in E2. congruence.
Qed.

Lemma get_topic_stats_counts_at_least_its_topic_witness :
  let pm :=
    Progress.run Progress.empty_store
      [Progress.RecordAttempt (Some "M") (Some "Beginner")
         (Progress.TopicStr "Topic1") (Some "q.txt") true] in
  Progress.get_topic_stats pm (Some "M") (Some "Beginner")
    (Progress.TopicStr "Topic1")
  = Progress.rollup pm "M/Beginner/Topic1/".
Proof.
  intros pm.
  apply (proj2 (get_topic_stats_counts_at_least_its_topic
                  [Progress.RecordAttempt (Some "M") (Some "Beginner")
                     (Progress.TopicStr "Topic1") (Some "q.txt") true]
                  (Some "M") (Some "Beginner") (Progress.TopicStr "Topic1"))).
  intros k a Hk _.
  change (Progress.attempts
            (Progress.stats
               (Progress.run Progress.empty_store
                  [Progress.RecordAttempt (Some "M") (Some "Beginner")
                     (Progress.TopicStr "Topic1") (Some "q.txt") true])))
    with (<[ "M/Beginner/Topic1/q.txt" :=
               {| Progress.total := 1; Progress.correct := 1 |} ]>
            (∅ : gmap string Progress.attempt)) in Hk.
  apply lookup_insert_Some in Hk as [[<- _]|[_ Hk]]; [reflexivity|].
  by rewrite lookup_empty in Hk.
Defined.
